(** * Verilator testbench drivers

    Shallow embedding of the two simulation drivers of the repository:

    - Variant A: [P_S_FIFO/dv/tb_fifo.cpp]   ([tb_fifo.main])
    - Variant B: [hello_verilator/dv/sim_main.cpp] ([sim_main.main])

    Both are single-threaded loops that call into the Verilator runtime
    (context, compiled model, VCD recorder).  The runtime is external to
    the repository; it is represented by a [world] that records every
    call a driver makes, in program order, and by a [Dut] that stands for
    the compiled model. *)

From Stdlib Require Import ZArith List Sorted String Ascii Bool Lia DecimalString.
Import ListNotations.
Local Open Scope Z_scope.

(** ** The external simulation library *)

(** Calls issued by a driver, logged in the order the program makes them. *)
Inductive call : Type :=
| NewContext
| CommandArgs (argv : list string)
| NewModel
| TraceEverOn (flag : bool)
| NewVcd
| Trace (depth : Z)
| Open (path : string)
| TimeInc (delta : Z)
| SetClk (v : Z)
| Eval
| Dump (t : Z)
| Close
| DeleteModel.

(** Modelled from the spec: the Simulation Context and the Waveform
    Recorder ([verilated.h], [verilated_vcd_c.h] are not part of the
    repository).  The context owns the forwarded arguments, an integer
    time counter that starts at 0 and that [timeInc] increases by its
    argument, and the completion flag; the recorder is observed through
    the [calls] it receives.  [cout] is the text written to standard
    output. *)
Record world : Type := mkWorld {
  ctx_args : list string;
  ctx_time : Z;
  got_finish : bool;
  trace_ever_on : bool;
  calls : list call;
  cout : string
}.

(** State of the process when [main] is entered. *)
Definition init_world : world :=
  mkWorld [] 0 false false [] EmptyString.

(** The object [top] points to: the exposed clock input and the circuit
    state behind it. *)
Record instance (S : Type) : Type := mkInstance {
  clk : Z;
  core : S
}.
Arguments mkInstance {S} _ _.
Arguments clk {S} _.
Arguments core {S} _.

(** Modelled from the spec: the Device-Under-Test model ([Vtb_fifo.h] and
    [Vtb_top.h] are generated by the Verilator build and are not part of
    the repository).  Construction sees the forwarded arguments;
    [dut_eval] recomputes the circuit state from the current time, the
    current inputs and the current state; the clock is an input, written
    by the driver only.  Either operation may raise the completion flag
    (the boolean component), and neither can lower it. *)
Record Dut : Type := mkDut {
  dut_state : Type;
  dut_new : list string -> instance dut_state * bool;
  dut_eval : Z -> Z -> dut_state -> dut_state * bool
}.

(** ** A state monad with a fuel exit

    A computation transforms the world and either returns a value or
    stops because the fuel given to a loop ran out; the world reached so
    far is kept in both cases, so that a run cut short is a prefix of the
    real one. *)
Definition M (A : Type) : Type := world -> world * option A.

Definition ret {A} (a : A) : M A := fun w => (w, Some a).

Definition bind {A B} (m : M A) (k : A -> M B) : M B :=
  fun w => match m w with
           | (w1, Some a) => k a w1
           | (w1, None) => (w1, None)
           end.

Definition out_of_fuel {A} : M A := fun w => (w, None).

Declare Scope drv_scope.
Delimit Scope drv_scope with drv.
Notation "x <- m ;; k" := (bind m (fun x => k))
  (at level 61, m at next level, right associativity) : drv_scope.
Notation "m ;; k" := (bind m (fun _ => k))
  (at level 61, right associativity) : drv_scope.
Local Open Scope drv_scope.

Definition log (c : call) : M unit :=
  fun w => (mkWorld (ctx_args w) (ctx_time w) (got_finish w) (trace_ever_on w)
                    (calls w ++ [c]) (cout w), Some tt).

Definition raise_finish (b : bool) : M unit :=
  fun w => (mkWorld (ctx_args w) (ctx_time w) (got_finish w || b) (trace_ever_on w)
                    (calls w) (cout w), Some tt).

(** [while (cond) { body }] over the loop-carried values [s]. *)
Fixpoint while {St} (fuel : nat) (cond : St -> M bool) (body : St -> M St)
         (s : St) : M St :=
  b <- cond s ;;
  if b then
    match fuel with
    | O => out_of_fuel
    | S fuel' => s' <- body s ;; while fuel' cond body s'
    end
  else ret s.

(** [body] executed [k] times in a row, without testing any condition. *)
Fixpoint unroll {St} (k : nat) (body : St -> M St) (s : St) : M St :=
  match k with
  | O => ret s
  | S k' => s' <- body s ;; unroll k' body s'
  end.

(** *** Context *)

(** [new VerilatedContext] *)
Definition new_VerilatedContext : M unit :=
  fun w => (mkWorld [] 0 false (trace_ever_on w) (calls w ++ [NewContext]) (cout w),
            Some tt).

(** [commandArgs(argc, argv)] *)
Definition commandArgs (argv : list string) : M unit :=
  fun w => (mkWorld argv (ctx_time w) (got_finish w) (trace_ever_on w)
                    (calls w ++ [CommandArgs argv]) (cout w), Some tt).

(** [Verilated::traceEverOn(flag)] *)
Definition traceEverOn (flag : bool) : M unit :=
  fun w => (mkWorld (ctx_args w) (ctx_time w) (got_finish w) flag
                    (calls w ++ [TraceEverOn flag]) (cout w), Some tt).

(** [gotFinish()] *)
Definition gotFinish : M bool := fun w => (w, Some (got_finish w)).

(** [contextp->timeInc(delta)] *)
Definition timeInc (delta : Z) : M unit :=
  fun w => (mkWorld (ctx_args w) (ctx_time w + delta) (got_finish w) (trace_ever_on w)
                    (calls w ++ [TimeInc delta]) (cout w), Some tt).

(** [contextp->time()] *)
Definition time : M Z := fun w => (w, Some (ctx_time w)).

(** *** Model *)

(** [new Vtb_fifo{contextp.get()}], [new Vtb_top] *)
Definition new_model (d : Dut) : M (instance (dut_state d)) :=
  fun w => let (top, fin) := dut_new d (ctx_args w) in
           (log NewModel ;; raise_finish fin ;; ret top) w.

(** [top->eval()] *)
Definition eval (d : Dut) (top : instance (dut_state d)) : M (instance (dut_state d)) :=
  fun w => let (s', fin) := dut_eval d (ctx_time w) (clk top) (core top) in
           (log Eval ;; raise_finish fin ;; ret (mkInstance (clk top) s')) w.

(** [top->clk = v] *)
Definition set_clk {S} (top : instance S) (v : Z) : M (instance S) :=
  log (SetClk v) ;; ret (mkInstance v (core top)).

(** [delete top] *)
Definition delete_model : M unit := log DeleteModel.

(** *** Recorder *)

(** [new VerilatedVcdC] *)
Definition new_VerilatedVcdC : M unit := log NewVcd.
(** [top->trace(tfp, depth)] *)
Definition trace (depth : Z) : M unit := log (Trace depth).
(** [tfp->open(path)] *)
Definition open (path : string) : M unit := log (Open path).
(** [tfp->dump(t)] *)
Definition dump (t : Z) : M unit := log (Dump t).
(** [tfp->close()] *)
Definition close : M unit := log Close.

(** *** Standard output *)

Definition endl_string : string := String (ascii_of_nat 10) EmptyString.

Definition string_of_Z (z : Z) : string := NilZero.string_of_int (Z.to_int z).

Definition cout_string (s : string) : M unit :=
  fun w => (mkWorld (ctx_args w) (ctx_time w) (got_finish w) (trace_ever_on w)
                    (calls w) (cout w ++ s)%string, Some tt).

(** [std::cout << z] for an [int]. *)
Definition cout_int (z : Z) : M unit := cout_string (string_of_Z z).
(** [std::cout << std::endl] *)
Definition endl : M unit := cout_string endl_string.

(** ** C++ arithmetic used by the drivers *)

(** Value of a 32-bit [int] after wrap-around. *)
Definition wrap_int (z : Z) : Z := (z + 2 ^ 31) mod 2 ^ 32 - 2 ^ 31.

(** [time++] on an [int]. *)
Definition int_incr (t : Z) : Z := wrap_int (t + 1).

(** [!x] converted back to an integer. *)
Definition lnot (x : Z) : Z := if x =? 0 then 1 else 0.

(** ** Variant A: tb_fifo.cpp *)

Module tb_fifo.

Definition setup (d : Dut) (argv : list string) : M (instance (dut_state d)) :=
  new_VerilatedContext ;;
  commandArgs argv ;;
  top <- new_model d ;;
  traceEverOn true ;;
  new_VerilatedVcdC ;;
  trace 99 ;;
  open "fifo_waveform.vcd" ;;
  ret top.

(** [!contextp->gotFinish()] *)
Definition cond {S} (_ : instance S) : M bool :=
  fin <- gotFinish ;; ret (negb fin).

Definition body (d : Dut) (top : instance (dut_state d)) : M (instance (dut_state d)) :=
  timeInc 1 ;;
  top <- eval d top ;;
  t <- time ;;
  dump t ;;
  ret top.

(** Everything up to and including the simulation loop. *)
Definition sim (d : Dut) (argv : list string) (fuel : nat) : M (instance (dut_state d)) :=
  top <- setup d argv ;;
  while fuel cond (body d) top.

(** [main]; on return the owning pointer [top] releases the model. *)
Definition main (d : Dut) (argv : list string) (fuel : nat) : M Z :=
  top <- sim d argv fuel ;;
  close ;;
  cout_string "--- Simulation Finished ---" ;; endl ;;
  cout_string "Waveform saved to: fifo_waveform.vcd" ;; endl ;;
  delete_model ;;
  ret 0.

End tb_fifo.

(** ** Variant B: sim_main.cpp *)

Module sim_main.

Definition setup (d : Dut) (argv : list string) : M (instance (dut_state d)) :=
  commandArgs argv ;;
  top <- new_model d ;;
  traceEverOn true ;;
  new_VerilatedVcdC ;;
  trace 99 ;;
  open "waveform.vcd" ;;
  ret top.

(** [!Verilated::gotFinish() && time < 1000] *)
Definition cond {S} (s : instance S * Z) : M bool :=
  fin <- gotFinish ;; ret (negb fin && (snd s <? 1000)).

Definition body (d : Dut) (s : instance (dut_state d) * Z)
  : M (instance (dut_state d) * Z) :=
  let (top, time) := s in
  top <- set_clk top (lnot (clk top)) ;;
  top <- eval d top ;;
  dump time ;;
  ret (top, int_incr time).

(** Everything up to and including the simulation loop; [int time = 0]. *)
Definition sim (d : Dut) (argv : list string) (fuel : nat)
  : M (instance (dut_state d) * Z) :=
  top <- setup d argv ;;
  while fuel cond (body d) (top, 0).

Definition main (d : Dut) (argv : list string) (fuel : nat) : M Z :=
  s <- sim d argv fuel ;;
  close ;;
  delete_model ;;
  cout_string "Simulation finished at time " ;; cout_int (snd s) ;; endl ;;
  ret 0.

End sim_main.

(** ** Observations on a run *)

Definition is_dump (c : call) : bool := match c with Dump _ => true | _ => false end.
Definition is_open (c : call) : bool := match c with Open _ => true | _ => false end.
Definition is_close (c : call) : bool := match c with Close => true | _ => false end.
Definition is_eval (c : call) : bool := match c with Eval => true | _ => false end.
Definition is_set_clk (c : call) : bool := match c with SetClk _ => true | _ => false end.
Definition is_new_model (c : call) : bool := match c with NewModel => true | _ => false end.
Definition is_trace_ever_on (c : call) : bool :=
  match c with TraceEverOn true => true | _ => false end.
Definition is_trace (c : call) : bool := match c with Trace _ => true | _ => false end.

(** Number of calls of one kind. *)
Definition count (p : call -> bool) (l : list call) : nat := List.length (filter p l).

(** The time stamps handed to [dump], in order. *)
Fixpoint dump_times (l : list call) : list Z :=
  match l with
  | [] => []
  | Dump t :: l' => t :: dump_times l'
  | _ :: l' => dump_times l'
  end.

(** The values assigned to [top->clk], in order. *)
Fixpoint clk_values (l : list call) : list Z :=
  match l with
  | [] => []
  | SetClk v :: l' => v :: clk_values l'
  | _ :: l' => clk_values l'
  end.

(** No two neighbours of the list are equal. *)
Fixpoint alternates (l : list Z) : Prop :=
  match l with
  | a :: (b :: _) as l' => a <> b /\ alternates l'
  | _ => True
  end.

(** Position of the first call satisfying [p]. *)
Fixpoint find_index (p : call -> bool) (l : list call) : option nat :=
  match l with
  | [] => None
  | c :: l' => if p c then Some O
               else match find_index p l' with
                    | Some i => Some (S i)
                    | None => None
                    end
  end.

(** Both kinds of call occur, and the first [p] comes before the first [q]. *)
Definition called_before (p q : call -> bool) (l : list call) : Prop :=
  match find_index p l, find_index q l with
  | Some i, Some j => (i < j)%nat
  | _, _ => False
  end.

(** [p] is called, and no [q] call is made before the first [p] call. *)
Definition no_call_until (q p : call -> bool) (l : list call) : Prop :=
  match find_index p l with
  | Some i => forallb (fun c => negb (q c)) (firstn i l) = true
  | None => False
  end.

(** The model is constructed once and the trace switch is turned on once,
    after the construction, before the recorder is bound to the model and
    before the model is first evaluated. *)
Definition traced_after_construction (l : list call) : Prop :=
  called_before is_new_model is_trace_ever_on l /\
  called_before is_trace_ever_on is_trace l /\
  no_call_until is_eval is_trace_ever_on l /\
  count is_new_model l = 1%nat /\ count is_trace_ever_on l = 1%nat.

(** The recorder is opened once, then only dumped to, then closed once. *)
Definition recorder_lifecycle (l : list call) : Prop :=
  exists pre path mid post,
    l = pre ++ Open path :: mid ++ Close :: post /\
    count is_dump pre = O /\ count is_dump post = O /\
    count is_open l = 1%nat /\ count is_close l = 1%nat.

(** The calls made before the loop is entered. *)
Definition setup_callsA (argv : list string) : list call :=
  [NewContext; CommandArgs argv; NewModel; TraceEverOn true; NewVcd; Trace 99;
   Open "fifo_waveform.vcd"].

Definition setup_callsB (argv : list string) : list call :=
  [CommandArgs argv; NewModel; TraceEverOn true; NewVcd; Trace 99;
   Open "waveform.vcd"].

(** The calls made after the loop has been left. *)
Definition teardown_calls : list call := [Close; DeleteModel].

(** What each driver has printed when it returns. *)
Definition bannerA : string :=
  ("--- Simulation Finished ---" ++ endl_string ++
   "Waveform saved to: fifo_waveform.vcd" ++ endl_string)%string.

Definition bannerB (t : Z) : string :=
  (("Simulation finished at time " ++ string_of_Z t) ++ endl_string)%string.

(** What the loop condition answers after [k] passes of the body. *)
Definition guard_at {St} (cond : St -> M bool) (body : St -> M St)
           (k : nat) (s : St) (w : world) : option bool :=
  snd ((s' <- unroll k body s ;; cond s') w).

(** The calls one pass of each loop makes, [k] passes in a row. *)
Fixpoint loop_callsA (t : Z) (k : nat) : list call :=
  match k with
  | O => []
  | S k' => TimeInc 1 :: Eval :: Dump (t + 1) :: loop_callsA (t + 1) k'
  end.

Fixpoint loop_callsB (t c : Z) (k : nat) : list call :=
  match k with
  | O => []
  | S k' => SetClk (lnot c) :: Eval :: Dump t :: loop_callsB (int_incr t) (lnot c) k'
  end.

(** The completion flag as the [k]-th test of the loop condition finds it
    ([k = 0] is the test before the first pass), had no test stopped the
    loop before. *)
Definition flagA (d : Dut) (argv : list string) (k : nat) : bool :=
  got_finish
    (fst ((top <- tb_fifo.setup d argv ;; unroll k (tb_fifo.body d) top) init_world)).

Definition flagB (d : Dut) (argv : list string) (k : nat) : bool :=
  got_finish
    (fst ((top <- sim_main.setup d argv ;; unroll k (sim_main.body d) (top, 0))
            init_world)).

(** ** Sample models *)

(** Raises the completion flag during its [n]-th evaluation. *)
Definition dut_finish_at (n : nat) : Dut :=
  mkDut nat (fun _ => (mkInstance 0 O, false))
        (fun _ _ s => (S s, Nat.eqb (S s) n)).

(** Never raises the completion flag. *)
Definition dut_idle : Dut :=
  mkDut unit (fun _ => (mkInstance 0 tt, false))
        (fun _ _ s => (s, false)).

(** Has the completion flag raised as soon as it is constructed. *)
Definition dut_born_finished : Dut :=
  mkDut unit (fun _ => (mkInstance 0 tt, true))
        (fun _ _ s => (s, false)).

(** Accumulates the clock levels it has sampled and raises the completion
    flag from its third evaluation on; its clock input starts high. *)
Definition dut_edges : Dut :=
  mkDut (Z * nat) (fun _ => (mkInstance 1 (0, 3%nat), false))
        (fun t c s => let n := Nat.pred (snd s) in
                      ((fst s + c, n), Nat.eqb n 0)).

(** ** Further observations *)

Definition is_time_inc (c : call) : bool := match c with TimeInc _ => true | _ => false end.
Definition is_command_args (c : call) : bool :=
  match c with CommandArgs _ => true | _ => false end.
Definition is_delete_model (c : call) : bool :=
  match c with DeleteModel => true | _ => false end.

(** [l] is an initial segment of [l']. *)
Definition is_prefix (l l' : list call) : Prop := exists rest, l' = l ++ rest.

(** The model driven by hand: starting from a circuit state and a
    completion flag, evaluate once per stimulus (a time and a clock level),
    in order; the flag stays up once an evaluation has raised it. *)
Definition feed (d : Dut) (stim : list (Z * Z)) (st : dut_state d * bool)
  : dut_state d * bool :=
  fold_left (fun acc tc =>
               (fst (dut_eval d (fst tc) (snd tc) (fst acc)),
                snd acc || snd (dut_eval d (fst tc) (snd tc) (fst acc))))
            stim st.

(** Times 1, 2, ..., [k] with the clock input left at [c0]. *)
Definition stimulusA (c0 : Z) (k : nat) : list (Z * Z) :=
  map (fun i => (Z.of_nat i, c0)) (seq 1 k).

(** The clock level of pass [i] (the first pass is pass 0) when the clock
    input starts at [c0]. *)
Definition clock_at (c0 : Z) (i : nat) : Z :=
  if Nat.even i then lnot c0 else lnot (lnot c0).

(** Time 0 throughout, the clock toggled before each evaluation. *)
Definition stimulusB (c0 : Z) (k : nat) : list (Z * Z) :=
  map (fun i => (0, clock_at c0 i)) (seq 0 k).

(** ** The passes of a run *)

(** Every loop test before test [n] found the flag down. *)
Definition flag_down_before (flag : nat -> bool) (n : nat) : bool :=
  forallb (fun j => negb (flag j)) (seq 0 n).

(** [n] is the number of passes Variant A's loop has made in a run given
    [fuel] that ended with [r]: each of the loop tests 0, ..., n-1 found
    the completion flag down and let a pass start; test [n] found it
    raised when the run returned, and when the run was cut short the fuel
    is what stopped it, after [fuel] passes. *)
Definition passes_A (d : Dut) (argv : list string) (fuel : nat)
           (r : option Z) (n : nat) : Prop :=
  flag_down_before (flagA d argv) n = true /\
  match r with
  | Some _ => flagA d argv n = true
  | None => flagA d argv n = false /\ n = fuel
  end.

(** The same for Variant B, whose loop is also left after 1000 passes. *)
Definition passes_B (d : Dut) (argv : list string) (fuel : nat)
           (r : option Z) (n : nat) : Prop :=
  flag_down_before (flagB d argv) n = true /\
  (n <= 1000)%nat /\
  match r with
  | Some _ => flagB d argv n = true \/ n = 1000%nat
  | None => flagB d argv n = false /\ n = fuel /\ (n < 1000)%nat
  end.

(** * Properties *)

(** ** Sample runs *)

Example string_of_Z_1000 : string_of_Z 1000 = "1000"%string.
Proof. reflexivity. Qed.

Example tb_fifo_finish_at_3 :
  tb_fifo.main (dut_finish_at 3) [] 10 init_world =
  (mkWorld [] 3 true true
     [NewContext; CommandArgs []; NewModel; TraceEverOn true; NewVcd; Trace 99;
      Open "fifo_waveform.vcd";
      TimeInc 1; Eval; Dump 1; TimeInc 1; Eval; Dump 2; TimeInc 1; Eval; Dump 3;
      Close; DeleteModel]
     ("--- Simulation Finished ---" ++ endl_string ++
      "Waveform saved to: fifo_waveform.vcd" ++ endl_string)%string,
   Some 0).
Proof. reflexivity. Qed.

Example sim_main_finish_at_3 :
  sim_main.main (dut_finish_at 3) [] 10 init_world =
  (mkWorld [] 0 true true
     [CommandArgs []; NewModel; TraceEverOn true; NewVcd; Trace 99;
      Open "waveform.vcd";
      SetClk 1; Eval; Dump 0; SetClk 0; Eval; Dump 1; SetClk 1; Eval; Dump 2;
      Close; DeleteModel]
     ("Simulation finished at time 3" ++ endl_string)%string,
   Some 0).
Proof. reflexivity. Qed.

(** ** Loops *)

Section WhileFacts.
Variable St : Type.
Variable cond : St -> M bool.
Variable body : St -> M St.

(** The loop condition is a query: it leaves the world alone. *)
Hypothesis cond_pure : forall s w, exists b, cond s w = (w, Some b).
(** One pass of the body always runs to its end. *)
Hypothesis body_total : forall s w, exists w' s', body s w = (w', Some s').

Lemma unroll_step k s w w1 s1 :
  body s w = (w1, Some s1) ->
  unroll (S k) body s w = unroll k body s1 w1.
Proof. intros H. cbn. unfold bind. rewrite H. reflexivity. Qed.

Lemma guard_at_step k s w w1 s1 :
  body s w = (w1, Some s1) ->
  guard_at cond body (S k) s w = guard_at cond body k s1 w1.
Proof.
  intros H. unfold guard_at, bind. rewrite (unroll_step k _ _ _ _ H). reflexivity.
Qed.

Lemma guard_at_unroll k s w w' s' b :
  unroll k body s w = (w', Some s') ->
  cond s' w' = (w', Some b) ->
  guard_at cond body k s w = Some b.
Proof. intros Hu Hc. unfold guard_at, bind. rewrite Hu, Hc. reflexivity. Qed.

Lemma while_stop fuel s w :
  cond s w = (w, Some false) -> while fuel cond body s w = (w, Some s).
Proof. intros H. destruct fuel; cbn; unfold bind; rewrite H; reflexivity. Qed.

Lemma while_step fuel s w w1 s1 :
  cond s w = (w, Some true) -> body s w = (w1, Some s1) ->
  while (S fuel) cond body s w = while fuel cond body s1 w1.
Proof. intros Hc Hb. cbn. unfold bind. rewrite Hc, Hb. reflexivity. Qed.

Lemma unroll_total k : forall s w, exists w' s', unroll k body s w = (w', Some s').
Proof.
  induction k as [|k IH]; intros s w.
  - exists w, s. reflexivity.
  - destruct (body_total s w) as (w1 & s1 & Hb).
    destruct (IH s1 w1) as (w' & s' & Hu).
    exists w', s'. rewrite (unroll_step k _ _ _ _ Hb). exact Hu.
Qed.

(** A loop given [fuel] runs the body some [k <= fuel] times: the
    condition held before each of these passes, and either it fails
    after the last one and the loop returns, or the fuel is used up with
    the condition still holding. *)
Lemma while_unroll fuel : forall s w,
  exists k w' s',
    (k <= fuel)%nat /\
    unroll k body s w = (w', Some s') /\
    (forall j, (j < k)%nat -> guard_at cond body j s w = Some true) /\
    ((cond s' w' = (w', Some false) /\
      while fuel cond body s w = (w', Some s')) \/
     (cond s' w' = (w', Some true) /\ k = fuel /\
      while fuel cond body s w = (w', None))).
Proof.
  induction fuel as [|fuel IH]; intros s w;
    destruct (cond_pure s w) as ([|] & Hc).
  - exists O, w, s. repeat split; [lia | intros j Hj; lia |].
    right. repeat split; [exact Hc |]. cbn. unfold bind. rewrite Hc. reflexivity.
  - exists O, w, s. repeat split; [lia | intros j Hj; lia |].
    left. split; [exact Hc | apply while_stop; exact Hc].
  - destruct (body_total s w) as (w1 & s1 & Hb).
    destruct (IH s1 w1) as (k & w' & s' & Hk & Hu & Hg & Hend).
    exists (S k), w', s'. repeat split.
    + lia.
    + rewrite (unroll_step k _ _ _ _ Hb). exact Hu.
    + intros [|j] Hj.
      * apply (guard_at_unroll O s w w s true); [reflexivity | exact Hc].
      * rewrite (guard_at_step j _ _ _ _ Hb). apply Hg. lia.
    + rewrite (while_step fuel _ _ _ _ Hc Hb).
      destruct Hend as [(Hc' & Hw) | (Hc' & Hf & Hw)].
      * left. split; assumption.
      * right. repeat split; [assumption | lia | assumption].
  - exists O, w, s. repeat split; [lia | intros j Hj; lia |].
    left. split; [exact Hc | apply while_stop; exact Hc].
Qed.
End WhileFacts.

(** ** Observations on lists of calls *)

Lemma count_app p l1 l2 : count p (l1 ++ l2) = (count p l1 + count p l2)%nat.
Proof. unfold count. rewrite filter_app, length_app. reflexivity. Qed.

Lemma dump_times_app l1 l2 : dump_times (l1 ++ l2) = dump_times l1 ++ dump_times l2.
Proof.
  induction l1 as [|c l1 IH]; [reflexivity|].
  destruct c; cbn; rewrite IH; reflexivity.
Qed.

Lemma clk_values_app l1 l2 : clk_values (l1 ++ l2) = clk_values l1 ++ clk_values l2.
Proof.
  induction l1 as [|c l1 IH]; [reflexivity|].
  destruct c; cbn; rewrite IH; reflexivity.
Qed.

Lemma length_dump_times l : List.length (dump_times l) = count is_dump l.
Proof.
  induction l as [|c l IH]; [reflexivity|].
  destruct c; cbn; unfold count in *; cbn; rewrite IH; reflexivity.
Qed.

Lemma length_clk_values l : List.length (clk_values l) = count is_set_clk l.
Proof.
  induction l as [|c l IH]; [reflexivity|].
  destruct c; cbn; unfold count in *; cbn; rewrite IH; reflexivity.
Qed.

Lemma find_index_app_found p l1 l2 i :
  find_index p l1 = Some i -> find_index p (l1 ++ l2) = Some i.
Proof.
  revert i. induction l1 as [|c l1 IH]; intros i H; [discriminate|].
  cbn in *. destruct (p c); [exact H|].
  destruct (find_index p l1) as [j|]; [|discriminate].
  rewrite (IH j eq_refl). exact H.
Qed.

(** *** The calls of Variant A's loop *)

Lemma dump_times_loopA k : forall t,
  dump_times (loop_callsA t k) = map (fun i => t + Z.of_nat i) (seq 1 k).
Proof.
  induction k as [|k IH]; intros t; [reflexivity|].
  cbn [loop_callsA dump_times seq map]. rewrite IH, <- (seq_shift k 1), map_map.
  f_equal. apply map_ext. intros i. lia.
Qed.

Lemma count_loopA p t k :
  (forall z, p (Dump z) = p (Dump 0)) ->
  count p (loop_callsA t k) = (k * count p [TimeInc 1; Eval; Dump 0])%nat.
Proof.
  intros Hp. revert t. induction k as [|k IH]; intros t; [reflexivity|].
  change (loop_callsA t (S k))
    with ([TimeInc 1; Eval; Dump (t + 1)] ++ loop_callsA (t + 1) k).
  rewrite count_app, IH. cbn [Nat.mul]. f_equal.
  unfold count. cbn. rewrite (Hp (t + 1)).
  destruct (p (TimeInc 1)), (p Eval), (p (Dump 0)); reflexivity.
Qed.

(** *** The calls of Variant B's loop *)

Lemma int_incr_small t : 0 <= t < 2 ^ 31 - 1 -> int_incr t = t + 1.
Proof.
  intros H. unfold int_incr, wrap_int.
  rewrite Z.mod_small; lia.
Qed.

Lemma iter_int_incr k : forall t,
  0 <= t -> t + Z.of_nat k < 2 ^ 31 ->
  Nat.iter k int_incr t = t + Z.of_nat k.
Proof.
  induction k as [|k IH]; intros t H0 H1.
  - cbn. lia.
  - rewrite Nat.iter_succ_r, int_incr_small by lia. rewrite IH by lia. lia.
Qed.

Lemma dump_times_loopB k : forall t c,
  0 <= t -> t + Z.of_nat k < 2 ^ 31 ->
  dump_times (loop_callsB t c k) = map (fun i => t + Z.of_nat i) (seq 0 k).
Proof.
  induction k as [|k IH]; intros t c H0 H1; [reflexivity|].
  cbn [loop_callsB dump_times seq map].
  rewrite int_incr_small by lia. rewrite IH by lia.
  rewrite <- (seq_shift k 0), map_map.
  f_equal; [lia|]. apply map_ext. intros i. lia.
Qed.

Lemma count_loopB p t c k :
  (forall z, p (Dump z) = p (Dump 0)) ->
  (forall z, p (SetClk z) = p (SetClk 0)) ->
  count p (loop_callsB t c k) = (k * count p [SetClk 0; Eval; Dump 0])%nat.
Proof.
  intros Hd Hs. revert t c. induction k as [|k IH]; intros t c; [reflexivity|].
  change (loop_callsB t c (S k))
    with ([SetClk (lnot c); Eval; Dump t] ++ loop_callsB (int_incr t) (lnot c) k).
  rewrite count_app, IH. cbn [Nat.mul]. f_equal.
  unfold count. cbn. rewrite (Hd t), (Hs (lnot c)).
  destruct (p (SetClk 0)), (p Eval), (p (Dump 0)); reflexivity.
Qed.

Lemma lnot_bit c : lnot c = 0 \/ lnot c = 1.
Proof. unfold lnot. destruct (c =? 0); auto. Qed.

Lemma lnot_flips c : lnot c <> c.
Proof. unfold lnot. destruct (Z.eqb_spec c 0); lia. Qed.

Lemma clk_values_loopB k : forall t c,
  clk_values (loop_callsB t c k) =
  match k with O => [] | S k' => lnot c :: clk_values (loop_callsB (int_incr t) (lnot c) k') end.
Proof. destruct k; reflexivity. Qed.

Lemma alternates_loopB k : forall t c, alternates (clk_values (loop_callsB t c k)).
Proof.
  induction k as [|k IH]; intros t c; [exact I|].
  rewrite clk_values_loopB. specialize (IH (int_incr t) (lnot c)).
  rewrite clk_values_loopB in *. destruct k as [|k]; [exact I|].
  split; [|exact IH]. intros E. exact (lnot_flips (lnot c) (eq_sym E)).
Qed.

Lemma bits_loopB k : forall t c,
  Forall (fun v => v = 0 \/ v = 1) (clk_values (loop_callsB t c k)).
Proof.
  induction k as [|k IH]; intros t c; [constructor|].
  rewrite clk_values_loopB. constructor; [apply lnot_bit | apply IH].
Qed.

(** ** Variant A: shape of every run *)

Lemma setupA_run d argv :
  tb_fifo.setup d argv init_world =
  (mkWorld argv 0 (snd (dut_new d argv)) true (setup_callsA argv) EmptyString,
   Some (fst (dut_new d argv))).
Proof.
  unfold tb_fifo.setup, new_model, bind. cbn.
  destruct (dut_new d argv) as [top fin]. reflexivity.
Qed.

Lemma condA_pure S (top : instance S) w : exists b, tb_fifo.cond top w = (w, Some b).
Proof. eexists. reflexivity. Qed.

Lemma bodyA_run d top w :
  tb_fifo.body d top w =
  (mkWorld (ctx_args w) (ctx_time w + 1)
     (got_finish w || snd (dut_eval d (ctx_time w + 1) (clk top) (core top)))
     (trace_ever_on w)
     (calls w ++ [TimeInc 1; Eval; Dump (ctx_time w + 1)]) (cout w),
   Some (mkInstance (clk top) (fst (dut_eval d (ctx_time w + 1) (clk top) (core top))))).
Proof.
  unfold tb_fifo.body, eval, bind. cbn.
  destruct (dut_eval d (ctx_time w + 1) (clk top) (core top)) as [s' fin]. cbn.
  rewrite <- !app_assoc. reflexivity.
Qed.

Lemma bodyA_total d top w : exists w' top', tb_fifo.body d top w = (w', Some top').
Proof. rewrite bodyA_run. eauto. Qed.

Lemma unrollA_run d k : forall top w,
  exists fin top',
    unroll k (tb_fifo.body d) top w =
    (mkWorld (ctx_args w) (ctx_time w + Z.of_nat k) fin (trace_ever_on w)
       (calls w ++ loop_callsA (ctx_time w) k) (cout w),
     Some top').
Proof.
  induction k as [|k IH]; intros top w.
  - exists (got_finish w), top. cbn. rewrite Z.add_0_r, app_nil_r.
    destruct w; reflexivity.
  - rewrite (unroll_step _ (tb_fifo.body d) k _ _ _ _ (bodyA_run d top w)).
    edestruct IH as (fin & top' & ->). exists fin, top'.
    cbn [ctx_args ctx_time trace_ever_on calls cout loop_callsA].
    rewrite <- app_assoc. f_equal. f_equal. lia.
Qed.

Lemma flagA_unroll d argv k :
  flagA d argv k =
  got_finish (fst (unroll k (tb_fifo.body d) (fst (dut_new d argv))
                     (mkWorld argv 0 (snd (dut_new d argv)) true
                        (setup_callsA argv) EmptyString))).
Proof. unfold flagA, bind. rewrite setupA_run. reflexivity. Qed.

(** Every run of Variant A makes some [k <= fuel] passes, the completion
    flag being down at each of the [k] tests that let a pass start; it
    then either finds the flag up and finishes, or is still looping when
    the fuel runs out. *)
Lemma mainA_shape d argv fuel :
  exists k,
    (k <= fuel)%nat /\
    (forall j, (j < k)%nat -> flagA d argv j = false) /\
    ((flagA d argv k = true /\
      tb_fifo.main d argv fuel init_world =
      (mkWorld argv (Z.of_nat k) true true
         (setup_callsA argv ++ loop_callsA 0 k ++ teardown_calls) bannerA,
       Some 0)) \/
     (flagA d argv k = false /\ k = fuel /\
      tb_fifo.main d argv fuel init_world =
      (mkWorld argv (Z.of_nat k) false true
         (setup_callsA argv ++ loop_callsA 0 k) EmptyString,
       None))).
Proof.
  set (w0 := mkWorld argv 0 (snd (dut_new d argv)) true (setup_callsA argv) EmptyString).
  set (top0 := fst (dut_new d argv)).
  destruct (while_unroll _ (@tb_fifo.cond _) (tb_fifo.body d) (@condA_pure _) (bodyA_total d)
              fuel top0 w0) as (k & w' & top' & Hk & Hu & Hg & Hend).
  destruct (unrollA_run d k top0 w0) as (fin & top'' & Hrun).
  rewrite Hu in Hrun. injection Hrun as Hw' Htop. subst top''.
  assert (Hflag : forall j, guard_at (@tb_fifo.cond _) (tb_fifo.body d) j top0 w0
                            = Some (negb (flagA d argv j))).
  { intros j. rewrite flagA_unroll. fold w0 top0.
    destruct (unroll_total _ (tb_fifo.body d) (bodyA_total d) j top0 w0) as (wj & tj & Hj).
    rewrite (guard_at_unroll _ (@tb_fifo.cond _) (tb_fifo.body d) j top0 w0 wj tj
               (negb (got_finish wj)) Hj eq_refl).
    rewrite Hj. reflexivity. }
  assert (Hfin : flagA d argv k = fin).
  { rewrite flagA_unroll. fold w0 top0. rewrite Hu, Hw'. reflexivity. }
  exists k. split; [exact Hk|]. split.
  { intros j Hj. specialize (Hg j Hj). rewrite Hflag in Hg.
    injection Hg as Hg. destruct (flagA d argv j); [discriminate | reflexivity]. }
  unfold tb_fifo.main, tb_fifo.sim, bind. rewrite setupA_run. fold w0 top0.
  destruct Hend as [(Hc & Hw) | (Hc & Hf & Hw)]; rewrite Hw.
  - left. rewrite Hw' in Hc. cbn in Hc. injection Hc as Hc.
    assert (Efin : fin = true) by (destruct fin; [reflexivity | discriminate]).
    rewrite Efin in *.
    split; [exact Hfin|]. rewrite Hw'. cbn. rewrite <- !app_assoc. reflexivity.
  - right. rewrite Hw' in Hc. cbn in Hc. injection Hc as Hc.
    assert (Efin : fin = false) by (destruct fin; [discriminate | reflexivity]).
    rewrite Efin in *.
    split; [exact Hfin|]. split; [exact Hf|]. rewrite Hw'. reflexivity.
Qed.

(** ** Variant B: shape of every run *)

Lemma setupB_run d argv :
  sim_main.setup d argv init_world =
  (mkWorld argv 0 (snd (dut_new d argv)) true (setup_callsB argv) EmptyString,
   Some (fst (dut_new d argv))).
Proof.
  unfold sim_main.setup, new_model, bind. cbn.
  destruct (dut_new d argv) as [top fin]. reflexivity.
Qed.

Lemma condB_run S (s : instance S * Z) w :
  sim_main.cond s w = (w, Some (negb (got_finish w) && (snd s <? 1000))).
Proof. reflexivity. Qed.

Lemma condB_pure S (s : instance S * Z) w : exists b, sim_main.cond s w = (w, Some b).
Proof. eexists. apply condB_run. Qed.

Lemma bodyB_run d top t w :
  sim_main.body d (top, t) w =
  (mkWorld (ctx_args w) (ctx_time w)
     (got_finish w || snd (dut_eval d (ctx_time w) (lnot (clk top)) (core top)))
     (trace_ever_on w)
     (calls w ++ [SetClk (lnot (clk top)); Eval; Dump t]) (cout w),
   Some (mkInstance (lnot (clk top))
           (fst (dut_eval d (ctx_time w) (lnot (clk top)) (core top))),
         int_incr t)).
Proof.
  unfold sim_main.body, eval, set_clk, bind. cbn.
  destruct (dut_eval d (ctx_time w) (lnot (clk top)) (core top)) as [s' fin]. cbn.
  rewrite <- !app_assoc. reflexivity.
Qed.

Lemma bodyB_total d s w : exists w' s', sim_main.body d s w = (w', Some s').
Proof. destruct s as [top t]. rewrite bodyB_run. eauto. Qed.

Lemma unrollB_run d k : forall top t w,
  exists fin top',
    unroll k (sim_main.body d) (top, t) w =
    (mkWorld (ctx_args w) (ctx_time w) fin (trace_ever_on w)
       (calls w ++ loop_callsB t (clk top) k) (cout w),
     Some (top', Nat.iter k int_incr t)).
Proof.
  induction k as [|k IH]; intros top t w.
  - exists (got_finish w), top. cbn. rewrite app_nil_r.
    destruct w; reflexivity.
  - rewrite (unroll_step _ (sim_main.body d) k _ _ _ _ (bodyB_run d top t w)).
    edestruct IH as (fin & top' & ->). exists fin, top'.
    cbn [ctx_args ctx_time trace_ever_on calls cout loop_callsB clk].
    rewrite <- app_assoc, Nat.iter_succ_r. reflexivity.
Qed.

Lemma flagB_unroll d argv k :
  flagB d argv k =
  got_finish (fst (unroll k (sim_main.body d) (fst (dut_new d argv), 0)
                     (mkWorld argv 0 (snd (dut_new d argv)) true
                        (setup_callsB argv) EmptyString))).
Proof. unfold flagB, bind. rewrite setupB_run. reflexivity. Qed.

(** Every run of Variant B makes some [k <= fuel] passes, never more than
    1000, the completion flag being down at each of the [k] tests that let
    a pass start; it then either leaves the loop (flag up, or 1000 passes
    made) and finishes, or is still looping when the fuel runs out. *)
Lemma mainB_shape d argv fuel :
  exists k,
    (k <= fuel)%nat /\ (k <= 1000)%nat /\
    (forall j, (j < k)%nat -> flagB d argv j = false) /\
    (((flagB d argv k = true \/ k = 1000%nat) /\
      (exists top, snd (sim_main.sim d argv fuel init_world) = Some (top, Z.of_nat k)) /\
      sim_main.main d argv fuel init_world =
      (mkWorld argv 0 (flagB d argv k) true
         (setup_callsB argv ++ loop_callsB 0 (clk (fst (dut_new d argv))) k
            ++ teardown_calls)
         (bannerB (Z.of_nat k)),
       Some 0)) \/
     (flagB d argv k = false /\ k = fuel /\ (k < 1000)%nat /\
      snd (sim_main.sim d argv fuel init_world) = None /\
      sim_main.main d argv fuel init_world =
      (mkWorld argv 0 false true
         (setup_callsB argv ++ loop_callsB 0 (clk (fst (dut_new d argv))) k)
         EmptyString,
       None))).
Proof.
  set (w0 := mkWorld argv 0 (snd (dut_new d argv)) true (setup_callsB argv) EmptyString).
  set (top0 := fst (dut_new d argv)).
  destruct (while_unroll _ (@sim_main.cond _) (sim_main.body d) (@condB_pure _) (bodyB_total d)
              fuel (top0, 0) w0) as (k & w' & s' & Hk & Hu & Hg & Hend).
  destruct (unrollB_run d k top0 0 w0) as (fin & top' & Hrun).
  rewrite Hu in Hrun. injection Hrun as Hw' Hs'.
  assert (Hflag : forall j, guard_at (@sim_main.cond _) (sim_main.body d) j (top0, 0) w0
                            = Some (negb (flagB d argv j)
                                    && (Nat.iter j int_incr 0 <? 1000))).
  { intros j. rewrite flagB_unroll. fold w0 top0.
    destruct (unrollB_run d j top0 0 w0) as (fj & tj & Hj).
    rewrite (guard_at_unroll _ (@sim_main.cond _) (sim_main.body d) j (top0, 0) w0 _ _ _ Hj
               (condB_run _ _ _)).
    rewrite Hj. reflexivity. }
  assert (Hfin : flagB d argv k = fin).
  { rewrite flagB_unroll. fold w0 top0. rewrite Hu, Hw'. reflexivity. }
  assert (Hk1000 : (k <= 1000)%nat).
  { destruct (Nat.le_gt_cases k 1000) as [Hle | Hgt]; [exact Hle|].
    specialize (Hg 1000%nat Hgt). rewrite Hflag, iter_int_incr in Hg by lia.
    replace (0 + Z.of_nat 1000 <? 1000) with false in Hg
      by (symmetry; apply Z.ltb_ge; lia).
    rewrite andb_false_r in Hg. discriminate. }
  assert (Htime : Nat.iter k int_incr 0 = Z.of_nat k)
    by (rewrite iter_int_incr by lia; lia).
  rewrite Htime in Hs'. subst s'.
  exists k. split; [exact Hk|]. split; [exact Hk1000|]. split.
  { intros j Hj. specialize (Hg j Hj). rewrite Hflag in Hg. injection Hg as Hg.
    apply andb_prop in Hg. destruct Hg as [Hg _].
    destruct (flagB d argv j); [discriminate | reflexivity]. }
  assert (Hsim : sim_main.sim d argv fuel init_world
                 = while fuel (@sim_main.cond _) (sim_main.body d) (top0, 0) w0).
  { unfold sim_main.sim, bind. rewrite setupB_run. reflexivity. }
  unfold sim_main.main, bind. rewrite Hsim.
  rewrite Hw', condB_run in Hend. cbn [got_finish snd] in Hend.
  destruct Hend as [(Hc & Hw) | (Hc & Hf & Hw)]; rewrite Hw;
    injection Hc as Hc.
  - left. split; [|split].
    + apply andb_false_iff in Hc. destruct Hc as [Hc | Hc].
      * left. rewrite Hfin. destruct fin; [reflexivity | discriminate].
      * right. apply Z.ltb_ge in Hc. lia.
    + exists top'. reflexivity.
    + rewrite Hfin. cbn. rewrite <- !app_assoc. reflexivity.
  - right. apply andb_prop in Hc. destruct Hc as [Hc1 Hc2].
    apply Z.ltb_lt in Hc2.
    assert (Efin : fin = false) by (destruct fin; [discriminate | reflexivity]).
    rewrite Efin in *.
    split; [exact Hfin|]. split; [exact Hf|]. split; [lia|]. split; reflexivity.
Qed.

(** ** What a run lets an observer see *)

Ltac count_loop :=
  rewrite ?count_app, ?count_loopA, ?count_loopB by reflexivity;
  unfold count; cbn [setup_callsA setup_callsB teardown_calls filter List.length
                     is_dump is_open is_close is_eval is_set_clk
                     is_new_model is_trace_ever_on is_trace];
  lia.

Ltac observe H := rewrite H; cbn [fst snd calls cout got_finish].

Lemma sorted_seq k : forall a, StronglySorted Z.lt (map Z.of_nat (seq a k)).
Proof.
  induction k as [|k IH]; intros a; cbn [seq map]; constructor.
  - apply IH.
  - apply Forall_forall. intros z Hz.
    apply in_map_iff in Hz. destruct Hz as (i & <- & Hi).
    apply in_seq in Hi. lia.
Qed.

Lemma mainA_observe d argv fuel :
  exists k,
    (k <= fuel)%nat /\
    (forall j, (j < k)%nat -> flagA d argv j = false) /\
    dump_times (calls (fst (tb_fifo.main d argv fuel init_world))) = map Z.of_nat (seq 1 k) /\
    count is_eval (calls (fst (tb_fifo.main d argv fuel init_world))) = k /\
    count is_dump (calls (fst (tb_fifo.main d argv fuel init_world))) = k /\
    ((flagA d argv k = true /\
      tb_fifo.main d argv fuel init_world =
      (mkWorld argv (Z.of_nat k) true true
         (setup_callsA argv ++ loop_callsA 0 k ++ teardown_calls) bannerA,
       Some 0)) \/
     (flagA d argv k = false /\ k = fuel /\
      tb_fifo.main d argv fuel init_world =
      (mkWorld argv (Z.of_nat k) false true
         (setup_callsA argv ++ loop_callsA 0 k) EmptyString,
       None))).
Proof.
  destruct (mainA_shape d argv fuel) as (k & Hk & Hlow & Hend).
  exists k. split; [exact Hk|]. split; [exact Hlow|].
  assert (Hd : dump_times (loop_callsA 0 k) = map Z.of_nat (seq 1 k)).
  { rewrite dump_times_loopA. apply map_ext. intros i. lia. }
  destruct Hend as [(Hf & Hm) | (Hf & Hfu & Hm)].
  - split; [observe Hm; rewrite !dump_times_app, Hd, app_nil_r; reflexivity|].
    split; [observe Hm; count_loop|]. split; [observe Hm; count_loop|].
    left. split; assumption.
  - split; [observe Hm; rewrite !dump_times_app, Hd; reflexivity|].
    split; [observe Hm; count_loop|]. split; [observe Hm; count_loop|].
    right. repeat split; assumption.
Qed.

Lemma mainB_observe d argv fuel :
  exists k,
    (k <= fuel)%nat /\ (k <= 1000)%nat /\
    (forall j, (j < k)%nat -> flagB d argv j = false) /\
    dump_times (calls (fst (sim_main.main d argv fuel init_world))) = map Z.of_nat (seq 0 k) /\
    clk_values (calls (fst (sim_main.main d argv fuel init_world))) =
      clk_values (loop_callsB 0 (clk (fst (dut_new d argv))) k) /\
    count is_eval (calls (fst (sim_main.main d argv fuel init_world))) = k /\
    count is_dump (calls (fst (sim_main.main d argv fuel init_world))) = k /\
    count is_set_clk (calls (fst (sim_main.main d argv fuel init_world))) = k /\
    (((flagB d argv k = true \/ k = 1000%nat) /\
      (exists top, snd (sim_main.sim d argv fuel init_world) = Some (top, Z.of_nat k)) /\
      sim_main.main d argv fuel init_world =
      (mkWorld argv 0 (flagB d argv k) true
         (setup_callsB argv ++ loop_callsB 0 (clk (fst (dut_new d argv))) k
            ++ teardown_calls)
         (bannerB (Z.of_nat k)),
       Some 0)) \/
     (flagB d argv k = false /\ k = fuel /\ (k < 1000)%nat /\
      snd (sim_main.sim d argv fuel init_world) = None /\
      sim_main.main d argv fuel init_world =
      (mkWorld argv 0 false true
         (setup_callsB argv ++ loop_callsB 0 (clk (fst (dut_new d argv))) k)
         EmptyString,
       None))).
Proof.
  destruct (mainB_shape d argv fuel) as (k & Hk & Hk1000 & Hlow & Hend).
  exists k. split; [exact Hk|]. split; [exact Hk1000|]. split; [exact Hlow|].
  assert (Hd : dump_times (loop_callsB 0 (clk (fst (dut_new d argv))) k)
               = map Z.of_nat (seq 0 k)).
  { rewrite dump_times_loopB by lia. apply map_ext. intros i. lia. }
  destruct Hend as [(Hf & Hs & Hm) | (Hf & Hfu & Hlt & Hs & Hm)].
  - split; [observe Hm; rewrite !dump_times_app, Hd, app_nil_r; reflexivity|].
    split; [observe Hm; rewrite !clk_values_app, app_nil_r; reflexivity|].
    split; [observe Hm; count_loop|]. split; [observe Hm; count_loop|].
    split; [observe Hm; count_loop|].
    left. repeat split; assumption.
  - split; [observe Hm; rewrite !dump_times_app, Hd; reflexivity|].
    split; [observe Hm; rewrite !clk_values_app; reflexivity|].
    split; [observe Hm; count_loop|]. split; [observe Hm; count_loop|].
    split; [observe Hm; count_loop|].
    right. repeat split; assumption.
Qed.

(** ** The sample models *)

Lemma idle_unrollA k : forall top w,
  got_finish (fst (unroll k (tb_fifo.body dut_idle) top w)) = got_finish w.
Proof.
  induction k as [|k IH]; intros top w; [reflexivity|].
  rewrite (unroll_step _ (tb_fifo.body dut_idle) k _ _ _ _ (bodyA_run dut_idle top w)).
  rewrite IH. cbn. apply orb_false_r.
Qed.


Lemma idle_flagA argv k : flagA dut_idle argv k = false.
Proof. rewrite flagA_unroll, idle_unrollA. reflexivity. Qed.


(** The first index at which a run can stop is fixed by the answers of the
    completion flag. *)
Lemma exit_unique (f1 f2 : nat -> bool) (bound fuel k1 k2 : nat) :
  (forall k, (k <= fuel)%nat -> f1 k = f2 k) ->
  (k1 <= fuel)%nat -> (k2 <= fuel)%nat ->
  (forall j, (j < k1)%nat -> f1 j = false) ->
  (forall j, (j < k2)%nat -> f2 j = false) ->
  (f1 k1 = true \/ k1 = bound \/ k1 = fuel) ->
  (f2 k2 = true \/ k2 = bound \/ k2 = fuel) ->
  (k1 <= bound)%nat -> (k2 <= bound)%nat ->
  k1 = k2.
Proof.
  intros Heq H1 H2 L1 L2 E1 E2 B1 B2.
  destruct (Nat.lt_trichotomy k1 k2) as [Hlt | [He | Hgt]]; [|exact He|].
  - destruct E1 as [E1 | [E1 | E1]]; [|lia|lia].
    rewrite (Heq k1 H1), (L2 k1 Hlt) in E1. discriminate.
  - destruct E2 as [E2 | [E2 | E2]]; [|lia|lia].
    rewrite <- (Heq k2 H2), (L1 k2 Hgt) in E2. discriminate.
Qed.

(** * The drivers' properties *)

(** ** Variant A *)

(** C1. In every run of Variant A the time stamps handed to [dump] are
    1, 2, 3, ... in this order: they start at 1 and increase strictly, the
    [i]-th pass of the loop dumping at time [i], because each pass first
    advances the context time by exactly 1 and only then dumps at the new
    time.  Every pass dumps, once: the number [n] of dumps is the number
    of passes made ([passes_A]), of evaluations and of time advances, and
    the calls of the loop are [n] times [timeInc(1)], [eval], [dump] at
    the new time.  This holds for every prefix of a run (every [fuel]),
    hence for runs that never end as well. *)
Theorem C1_dump_times_A d argv fuel :
  let w := fst (tb_fifo.main d argv fuel init_world) in
  let ts := dump_times (calls w) in
  let n := List.length ts in
  ts = map Z.of_nat (seq 1 n) /\
  StronglySorted Z.lt ts /\
  (ts = [] \/ hd_error ts = Some 1) /\
  passes_A d argv fuel (snd (tb_fifo.main d argv fuel init_world)) n /\
  count is_eval (calls w) = n /\
  count is_time_inc (calls w) = n /\
  calls w =
    setup_callsA argv ++ loop_callsA 0 n
      ++ match snd (tb_fifo.main d argv fuel init_world) with
         | Some _ => teardown_calls
         | None => []
         end.
Proof.
  destruct (mainA_observe d argv fuel) as (k & _ & L & Hd & He & _ & Hend).
  cbv zeta. rewrite Hd, He, length_map, length_seq.
  split; [reflexivity|]. split; [apply sorted_seq|]. split.
  { destruct k as [|k]; [left | right]; reflexivity. }
  assert (Hdown : flag_down_before (flagA d argv) k = true).
  { apply forallb_forall. intros j Hj. apply in_seq in Hj.
    rewrite L by lia. reflexivity. }
  destruct Hend as [(Hf & Hm) | (Hf & Hfu & Hm)]; rewrite Hm; cbn [fst snd calls].
  - split; [split; assumption|]. split; [reflexivity|].
    split; [|reflexivity].
    rewrite !count_app, count_loopA by reflexivity. unfold count. cbn. lia.
  - split; [split; [assumption | split; assumption]|]. split; [reflexivity|].
    split; [|rewrite app_nil_r; reflexivity].
    rewrite !count_app, count_loopA by reflexivity. unfold count. cbn. lia.
Qed.

(** C6. In Variant A the loop is left only through the model's completion
    flag: a run that returns has found the flag raised, and when the model
    never raises it the loop is still running after any number of passes
    (no bound on the number of passes exists). *)
Theorem C6_only_the_model_stops_A d argv :
  (forall fuel,
      snd (tb_fifo.main d argv fuel init_world) <> None ->
      got_finish (fst (tb_fifo.main d argv fuel init_world)) = true /\
      exists k, (k <= fuel)%nat /\ flagA d argv k = true) /\
  ((forall k, flagA d argv k = false) ->
   forall fuel,
     snd (tb_fifo.main d argv fuel init_world) = None /\
     count is_eval (calls (fst (tb_fifo.main d argv fuel init_world))) = fuel).
Proof.
  split.
  - intros fuel Hret.
    destruct (mainA_observe d argv fuel) as (k & Hk & _ & _ & _ & _ & Hend).
    destruct Hend as [(Hf & Hm) | (_ & _ & Hm)]; rewrite Hm in *.
    + split; [reflexivity|]. exists k. split; assumption.
    + cbn in Hret. congruence.
  - intros Hnever fuel.
    destruct (mainA_observe d argv fuel) as (k & Hk & _ & _ & He & _ & Hend).
    destruct Hend as [(Hf & _) | (_ & Hfu & Hm)].
    + rewrite Hnever in Hf. discriminate.
    + split; [rewrite Hm; reflexivity | rewrite He; exact Hfu].
Qed.

Lemma C6_only_the_model_stops_A_witness :
  (snd (tb_fifo.main (dut_finish_at 3) [] 10 init_world) <> None /\
   got_finish (fst (tb_fifo.main (dut_finish_at 3) [] 10 init_world)) = true) /\
  ((forall k, flagA dut_idle [] k = false) /\
   snd (tb_fifo.main dut_idle [] 7 init_world) = None /\
   count is_eval (calls (fst (tb_fifo.main dut_idle [] 7 init_world))) = 7%nat).
Proof.
  split.
  - assert (H : snd (tb_fifo.main (dut_finish_at 3) [] 10 init_world) <> None)
      by (vm_compute; discriminate).
    split; [exact H|].
    exact (proj1 (proj1 (C6_only_the_model_stops_A (dut_finish_at 3) []) 10%nat H)).
  - split; [exact (idle_flagA [])|].
    exact (proj2 (C6_only_the_model_stops_A dut_idle []) (idle_flagA []) 7%nat).
Defined.

(** ** Variant B *)



(** C3. In every run of Variant B the value assigned to [clk] is 0 or 1
    and differs from the value assigned in the pass before: the clock
    alternates on every pass.  Every pass assigns it, once, before it
    evaluates the model: the number [n] of assignments is the number of
    passes made ([passes_B]) and of evaluations, and the calls of the loop
    are [n] times the assignment of the inverted level, [eval], [dump]. *)
Theorem C3_clock_alternates_B d argv fuel :
  let w := fst (sim_main.main d argv fuel init_world) in
  let vs := clk_values (calls w) in
  let n := List.length vs in
  alternates vs /\
  Forall (fun v => v = 0 \/ v = 1) vs /\
  n = count is_eval (calls w) /\
  passes_B d argv fuel (snd (sim_main.main d argv fuel init_world)) n /\
  calls w =
    setup_callsB argv ++ loop_callsB 0 (clk (fst (dut_new d argv))) n
      ++ match snd (sim_main.main d argv fuel init_world) with
         | Some _ => teardown_calls
         | None => []
         end.
Proof.
  destruct (mainB_observe d argv fuel)
    as (k & _ & B & L & _ & Hv & He & _ & Hc & Hend).
  cbv zeta. rewrite length_clk_values, He, Hc, Hv.
  split; [apply alternates_loopB|]. split; [apply bits_loopB|].
  split; [reflexivity|].
  assert (Hdown : flag_down_before (flagB d argv) k = true).
  { apply forallb_forall. intros j Hj. apply in_seq in Hj.
    rewrite L by lia. reflexivity. }
  destruct Hend as [(Hf & _ & Hm) | (Hf & Hfu & Hlt & _ & Hm)];
    rewrite Hm; cbn [fst snd calls].
  - split; [|reflexivity]. repeat split; assumption.
  - split; [|rewrite app_nil_r; reflexivity]. repeat split; assumption.
Qed.




(** C10. When the completion flag is already raised before the first
    pass, Variant B makes no pass at all: no clock toggle, no evaluation
    and no dump; the waveform file is still opened once and closed once,
    the time printed is 0 and the exit status is 0. *)
Theorem C10_finished_before_start_B d argv fuel :
  flagB d argv 0 = true ->
  let w := fst (sim_main.main d argv fuel init_world) in
  snd (sim_main.main d argv fuel init_world) = Some 0 /\
  calls w = [CommandArgs argv; NewModel; TraceEverOn true; NewVcd; Trace 99;
             Open "waveform.vcd"; Close; DeleteModel] /\
  count is_set_clk (calls w) = O /\
  count is_eval (calls w) = O /\
  count is_dump (calls w) = O /\
  count is_open (calls w) = 1%nat /\
  count is_close (calls w) = 1%nat /\
  cout w = ("Simulation finished at time 0" ++ endl_string)%string.
Proof.
  intros Hup.
  destruct (mainB_shape d argv fuel) as (k & _ & _ & Hbelow & Hend).
  assert (Hk : k = O).
  { destruct k as [|k]; [reflexivity|].
    rewrite (Hbelow O (Nat.lt_0_succ k)) in Hup. discriminate. }
  subst k. destruct Hend as [(_ & _ & Hm) | (Hf & _)].
  - cbv zeta. rewrite Hm. cbn. repeat split; reflexivity.
  - rewrite Hup in Hf. discriminate.
Qed.

Lemma C10_finished_before_start_B_witness :
  flagB dut_born_finished [] 0 = true /\
  snd (sim_main.main dut_born_finished [] 5 init_world) = Some 0 /\
  count is_eval (calls (fst (sim_main.main dut_born_finished [] 5 init_world))) = O /\
  cout (fst (sim_main.main dut_born_finished [] 5 init_world)) =
    ("Simulation finished at time 0" ++ endl_string)%string.
Proof.
  split; [reflexivity|].
  destruct (C10_finished_before_start_B dut_born_finished [] 5 eq_refl)
    as (Hr & _ & _ & He & _ & _ & _ & Hp).
  split; [exact Hr|]. split; [exact He | exact Hp].
Defined.

(** ** Both variants *)

Lemma traced_after_construction_A argv rest :
  count is_new_model rest = O -> count is_trace_ever_on rest = O ->
  traced_after_construction (setup_callsA argv ++ rest).
Proof.
  intros Hn Ht. unfold traced_after_construction, called_before, no_call_until.
  rewrite (find_index_app_found is_new_model (setup_callsA argv) rest 2 eq_refl).
  rewrite (find_index_app_found is_trace_ever_on (setup_callsA argv) rest 3 eq_refl).
  rewrite (find_index_app_found is_trace (setup_callsA argv) rest 5 eq_refl).
  rewrite !count_app, Hn, Ht.
  split; [lia|]. split; [lia|]. repeat split; reflexivity.
Qed.

Lemma traced_after_construction_B argv rest :
  count is_new_model rest = O -> count is_trace_ever_on rest = O ->
  traced_after_construction (setup_callsB argv ++ rest).
Proof.
  intros Hn Ht. unfold traced_after_construction, called_before, no_call_until.
  rewrite (find_index_app_found is_new_model (setup_callsB argv) rest 1 eq_refl).
  rewrite (find_index_app_found is_trace_ever_on (setup_callsB argv) rest 2 eq_refl).
  rewrite (find_index_app_found is_trace (setup_callsB argv) rest 4 eq_refl).
  rewrite !count_app, Hn, Ht.
  split; [lia|]. split; [lia|]. repeat split; reflexivity.
Qed.

(** C5 (as the code has it). In every run of either variant the model
    instance is constructed first and the global trace switch
    [traceEverOn(true)] is invoked after it, once, before the recorder is
    bound to the model by [trace] and before the first evaluation. *)
Theorem C5_switch_after_construction d argv fuel :
  traced_after_construction (calls (fst (tb_fifo.main d argv fuel init_world))) /\
  traced_after_construction (calls (fst (sim_main.main d argv fuel init_world))).
Proof.
  split.
  - destruct (mainA_shape d argv fuel) as (k & _ & _ & Hend).
    destruct Hend as [(_ & Hm) | (_ & _ & Hm)]; rewrite Hm; cbn [fst calls];
      apply traced_after_construction_A; count_loop.
  - destruct (mainB_shape d argv fuel) as (k & _ & _ & _ & Hend).
    destruct Hend as [(_ & _ & Hm) | (_ & _ & _ & _ & Hm)]; rewrite Hm; cbn [fst calls];
      apply traced_after_construction_B; count_loop.
Qed.

(** C5 (as the spec has it) fails: in the runs below the trace switch is
    not invoked before the model is constructed, in neither variant. *)
Lemma C5_switch_before_construction_fails :
  ~ called_before is_trace_ever_on is_new_model
      (calls (fst (tb_fifo.main (dut_finish_at 3) [] 10 init_world))) /\
  ~ called_before is_trace_ever_on is_new_model
      (calls (fst (sim_main.main (dut_finish_at 3) [] 10 init_world))).
Proof. split; vm_compute; lia. Qed.

Lemma lifecycle_A argv k :
  recorder_lifecycle (setup_callsA argv ++ loop_callsA 0 k ++ teardown_calls).
Proof.
  exists [NewContext; CommandArgs argv; NewModel; TraceEverOn true; NewVcd; Trace 99],
         "fifo_waveform.vcd"%string, (loop_callsA 0 k), [DeleteModel].
  split; [reflexivity|]. split; [reflexivity|]. split; [reflexivity|].
  split; count_loop.
Qed.

Lemma lifecycle_B argv c k :
  recorder_lifecycle (setup_callsB argv ++ loop_callsB 0 c k ++ teardown_calls).
Proof.
  exists [CommandArgs argv; NewModel; TraceEverOn true; NewVcd; Trace 99],
         "waveform.vcd"%string, (loop_callsB 0 c k), [DeleteModel].
  split; [reflexivity|]. split; [reflexivity|]. split; [reflexivity|].
  split; count_loop.
Qed.

(** C7. In every run of either variant that returns, the recorder is
    opened exactly once, before the first dump, and closed exactly once,
    after the last dump: no dump comes before [open] or after [close]. *)
Theorem C7_recorder_lifecycle d argv fuel :
  (snd (tb_fifo.main d argv fuel init_world) <> None ->
   recorder_lifecycle (calls (fst (tb_fifo.main d argv fuel init_world)))) /\
  (snd (sim_main.main d argv fuel init_world) <> None ->
   recorder_lifecycle (calls (fst (sim_main.main d argv fuel init_world)))).
Proof.
  split; intros Hret.
  - destruct (mainA_shape d argv fuel) as (k & _ & _ & Hend).
    destruct Hend as [(_ & Hm) | (_ & _ & Hm)]; rewrite Hm in *.
    + apply lifecycle_A.
    + cbn in Hret. congruence.
  - destruct (mainB_shape d argv fuel) as (k & _ & _ & _ & Hend).
    destruct Hend as [(_ & _ & Hm) | (_ & _ & _ & _ & Hm)]; rewrite Hm in *.
    + apply lifecycle_B.
    + cbn in Hret. congruence.
Qed.

Lemma C7_recorder_lifecycle_witness :
  recorder_lifecycle (calls (fst (tb_fifo.main (dut_finish_at 3) [] 10 init_world))) /\
  recorder_lifecycle (calls (fst (sim_main.main (dut_finish_at 3) [] 10 init_world))).
Proof.
  destruct (C7_recorder_lifecycle (dut_finish_at 3) [] 10) as (HA & HB).
  split; [apply HA | apply HB]; vm_compute; discriminate.
Defined.

(** C8. The dump requests of a run depend on nothing but the answers of
    the completion flag: two runs of the same variant with the same
    arguments, on models that give the same answers, make the same dump
    requests in the same order, print the same text and end the same way.
    In particular two runs on the same model are identical. *)
Theorem C8_determinism d1 d2 argv fuel :
  ((forall k, (k <= fuel)%nat -> flagA d1 argv k = flagA d2 argv k) ->
   dump_times (calls (fst (tb_fifo.main d1 argv fuel init_world))) =
   dump_times (calls (fst (tb_fifo.main d2 argv fuel init_world))) /\
   tb_fifo.main d1 argv fuel init_world = tb_fifo.main d2 argv fuel init_world) /\
  ((forall k, (k <= fuel)%nat -> flagB d1 argv k = flagB d2 argv k) ->
   dump_times (calls (fst (sim_main.main d1 argv fuel init_world))) =
   dump_times (calls (fst (sim_main.main d2 argv fuel init_world))) /\
   cout (fst (sim_main.main d1 argv fuel init_world)) =
   cout (fst (sim_main.main d2 argv fuel init_world)) /\
   snd (sim_main.main d1 argv fuel init_world) = snd (sim_main.main d2 argv fuel init_world)).
Proof.
  split; intros Heq.
  - destruct (mainA_observe d1 argv fuel) as (k1 & Hk1 & L1 & D1 & _ & _ & E1).
    destruct (mainA_observe d2 argv fuel) as (k2 & Hk2 & L2 & D2 & _ & _ & E2).
    assert (Hk : k1 = k2).
    { apply (exit_unique (flagA d1 argv) (flagA d2 argv) fuel fuel); try assumption.
      - destruct E1 as [(H & _) | (_ & H & _)]; auto.
      - destruct E2 as [(H & _) | (_ & H & _)]; auto. }
    subst k2. split; [rewrite D1, D2; reflexivity|].
    specialize (Heq k1 Hk1).
    destruct E1 as [(F1 & M1) | (F1 & _ & M1)];
      destruct E2 as [(F2 & M2) | (F2 & _ & M2)];
      try (rewrite F1, F2 in Heq; discriminate);
      rewrite M1, M2; reflexivity.
  - destruct (mainB_observe d1 argv fuel)
      as (k1 & Hk1 & B1 & L1 & D1 & _ & _ & _ & _ & E1).
    destruct (mainB_observe d2 argv fuel)
      as (k2 & Hk2 & B2 & L2 & D2 & _ & _ & _ & _ & E2).
    assert (Hk : k1 = k2).
    { apply (exit_unique (flagB d1 argv) (flagB d2 argv) 1000 fuel); try assumption.
      - destruct E1 as [([H | H] & _) | (_ & H & _)]; auto.
      - destruct E2 as [([H | H] & _) | (_ & H & _)]; auto. }
    subst k2. split; [rewrite D1, D2; reflexivity|].
    specialize (Heq k1 Hk1).
    destruct E1 as [(F1 & _ & M1) | (F1 & Hf1 & Hl1 & _ & M1)];
      destruct E2 as [(F2 & _ & M2) | (F2 & Hf2 & Hl2 & _ & M2)];
      rewrite M1, M2; cbn [fst snd cout]; try (split; reflexivity).
    + destruct F1 as [F1 | F1]; [|lia]. rewrite F1, F2 in Heq. discriminate.
    + destruct F2 as [F2 | F2]; [|lia]. rewrite F1, F2 in Heq. discriminate.
Qed.

Lemma C8_determinism_witness :
  (forall k, (k <= 6)%nat -> flagB (dut_finish_at 3) [] k = flagB dut_edges [] k) /\
  (forall k, (k <= 6)%nat -> flagA (dut_finish_at 3) [] k = flagA dut_edges [] k) /\
  dump_times (calls (fst (tb_fifo.main (dut_finish_at 3) [] 6 init_world))) =
  dump_times (calls (fst (tb_fifo.main dut_edges [] 6 init_world))) /\
  dump_times (calls (fst (sim_main.main (dut_finish_at 3) [] 6 init_world))) =
  dump_times (calls (fst (sim_main.main dut_edges [] 6 init_world))).
Proof.
  assert (HB : forall k, (k <= 6)%nat ->
                         flagB (dut_finish_at 3) [] k = flagB dut_edges [] k).
  { intros k Hk. do 7 (destruct k as [|k]; [reflexivity|]). lia. }
  assert (HA : forall k, (k <= 6)%nat ->
                         flagA (dut_finish_at 3) [] k = flagA dut_edges [] k).
  { intros k Hk. do 7 (destruct k as [|k]; [reflexivity|]). lia. }
  split; [exact HB|]. split; [exact HA|].
  destruct (C8_determinism (dut_finish_at 3) dut_edges [] 6) as (DA & DB).
  split; [exact (proj1 (DA HA)) | exact (proj1 (DB HB))].
Defined.

(** * Further properties of the drivers *)

(** ** What the drivers feed to the model *)

Lemma feed_cons d t c stim s fin :
  feed d ((t, c) :: stim) (s, fin) =
  feed d stim (fst (dut_eval d t c s), fin || snd (dut_eval d t c s)).
Proof. reflexivity. Qed.

Lemma unrollA_feed d k : forall top w,
  exists w' top',
    unroll k (tb_fifo.body d) top w = (w', Some top') /\
    clk top' = clk top /\
    (core top', got_finish w') =
    feed d (map (fun i => (ctx_time w + Z.of_nat i, clk top)) (seq 1 k))
         (core top, got_finish w).
Proof.
  induction k as [|k IH]; intros top w.
  - exists w, top. repeat split.
  - rewrite (unroll_step _ (tb_fifo.body d) k _ _ _ _ (bodyA_run d top w)).
    edestruct IH as (w' & top' & -> & Hc & Hf). exists w', top'.
    split; [reflexivity|]. split; [exact Hc|].
    rewrite Hf. cbn [seq map clk core ctx_time got_finish].
    rewrite feed_cons, <- (seq_shift k 1), map_map. f_equal.
    apply map_ext. intros i. f_equal. lia.
Qed.

Lemma clock_at_succ c0 i : clock_at c0 (S i) = lnot (clock_at c0 i).
Proof.
  unfold clock_at. rewrite Nat.even_succ, <- Nat.negb_even.
  destruct (Nat.even i); cbn; [reflexivity|].
  unfold lnot. destruct (c0 =? 0); reflexivity.
Qed.

Lemma unrollB_feed d k : forall top t w (i : nat) (c0 : Z),
  clk top = match i with O => c0 | S i' => clock_at c0 i' end ->
  exists w' top' t',
    unroll k (sim_main.body d) (top, t) w = (w', Some (top', t')) /\
    (core top', got_finish w') =
    feed d (map (fun j => (ctx_time w, clock_at c0 j)) (seq i k))
         (core top, got_finish w) /\
    ctx_time w' = ctx_time w /\
    clk top' = match (k + i)%nat with O => c0 | S m => clock_at c0 m end.
Proof.
  induction k as [|k IH]; intros top t w i c0 Hclk.
  - exists w, top, t. repeat split. exact Hclk.
  - rewrite (unroll_step _ (sim_main.body d) k _ _ _ _ (bodyB_run d top t w)).
    assert (Hnext : lnot (clk top) = clock_at c0 i).
    { rewrite Hclk. destruct i as [|i]; [reflexivity|].
      symmetry. apply clock_at_succ. }
    edestruct (IH (mkInstance (lnot (clk top))
                     (fst (dut_eval d (ctx_time w) (lnot (clk top)) (core top))))
                  (int_incr t)
                  (mkWorld (ctx_args w) (ctx_time w)
                     (got_finish w
                      || snd (dut_eval d (ctx_time w) (lnot (clk top)) (core top)))
                     (trace_ever_on w)
                     (calls w ++ [SetClk (lnot (clk top)); Eval; Dump t]) (cout w))
                  (S i) c0) as (w' & top' & t' & -> & Hf & Ht & Hc).
    { cbn [clk]. exact Hnext. }
    exists w', top', t'. split; [reflexivity|]. split; [|split; [exact Ht|]].
    + rewrite Hf. cbn [seq map clk core ctx_time got_finish].
      rewrite feed_cons, Hnext. reflexivity.
    + rewrite Hc, Nat.add_succ_r. reflexivity.
Qed.

Ltac count_calls :=
  rewrite ?count_app, ?count_loopA, ?count_loopB by reflexivity;
  unfold count; cbn [setup_callsA setup_callsB teardown_calls filter List.length
                     is_dump is_open is_close is_eval is_set_clk
                     is_new_model is_trace_ever_on is_trace
                     is_time_inc is_command_args is_delete_model];
  lia.

Lemma simA_unroll d argv fuel :
  exists k,
    (k <= fuel)%nat /\
    count is_eval (calls (fst (tb_fifo.sim d argv fuel init_world))) = k /\
    fst (tb_fifo.sim d argv fuel init_world) =
    fst (unroll k (tb_fifo.body d) (fst (dut_new d argv))
           (mkWorld argv 0 (snd (dut_new d argv)) true (setup_callsA argv) EmptyString)) /\
    (snd (tb_fifo.sim d argv fuel init_world) = None \/
     snd (tb_fifo.sim d argv fuel init_world) =
     snd (unroll k (tb_fifo.body d) (fst (dut_new d argv))
            (mkWorld argv 0 (snd (dut_new d argv)) true (setup_callsA argv) EmptyString))).
Proof.
  unfold tb_fifo.sim, bind. rewrite setupA_run.
  set (w0 := mkWorld argv 0 (snd (dut_new d argv)) true (setup_callsA argv) EmptyString).
  set (top0 := fst (dut_new d argv)).
  destruct (while_unroll _ (@tb_fifo.cond _) (tb_fifo.body d) (@condA_pure _)
              (bodyA_total d) fuel top0 w0) as (k & w' & top' & Hk & Hu & _ & Hend).
  destruct (unrollA_run d k top0 w0) as (fin & top'' & Hrun).
  exists k. split; [exact Hk|].
  assert (Hw : fst (while fuel (@tb_fifo.cond _) (tb_fifo.body d) top0 w0) = w')
    by (destruct Hend as [(_ & ->) | (_ & _ & ->)]; reflexivity).
  rewrite Hw, Hu. cbn [fst snd]. split; [|split; [reflexivity|]].
  - rewrite Hu in Hrun. injection Hrun as -> _.
    change (count is_eval (setup_callsA argv ++ loop_callsA 0 k) = k). count_calls.
  - destruct Hend as [(_ & ->) | (_ & _ & ->)]; [right | left]; reflexivity.
Qed.

Lemma simB_unroll d argv fuel :
  exists k,
    (k <= fuel)%nat /\
    count is_eval (calls (fst (sim_main.sim d argv fuel init_world))) = k /\
    fst (sim_main.sim d argv fuel init_world) =
    fst (unroll k (sim_main.body d) (fst (dut_new d argv), 0)
           (mkWorld argv 0 (snd (dut_new d argv)) true (setup_callsB argv) EmptyString)) /\
    (snd (sim_main.sim d argv fuel init_world) = None \/
     snd (sim_main.sim d argv fuel init_world) =
     snd (unroll k (sim_main.body d) (fst (dut_new d argv), 0)
            (mkWorld argv 0 (snd (dut_new d argv)) true (setup_callsB argv) EmptyString))).
Proof.
  unfold sim_main.sim, bind. rewrite setupB_run.
  set (w0 := mkWorld argv 0 (snd (dut_new d argv)) true (setup_callsB argv) EmptyString).
  set (top0 := fst (dut_new d argv)).
  destruct (while_unroll _ (@sim_main.cond _) (sim_main.body d) (@condB_pure _)
              (bodyB_total d) fuel (top0, 0) w0) as (k & w' & s' & Hk & Hu & _ & Hend).
  destruct (unrollB_run d k top0 0 w0) as (fin & top'' & Hrun).
  exists k. split; [exact Hk|].
  assert (Hw : fst (while fuel (@sim_main.cond _) (sim_main.body d) (top0, 0) w0) = w')
    by (destruct Hend as [(_ & ->) | (_ & _ & ->)]; reflexivity).
  rewrite Hw, Hu. cbn [fst snd]. split; [|split; [reflexivity|]].
  - rewrite Hu in Hrun. injection Hrun as -> _.
    change (count is_eval (setup_callsB argv ++ loop_callsB 0 (clk top0) k) = k).
    count_calls.
  - destruct Hend as [(_ & ->) | (_ & _ & ->)]; [right | left]; reflexivity.
Qed.

(** X1. What Variant A feeds to the model: the model is evaluated at the
    times 1, 2, 3, ... in this order with its clock input as construction
    left it.  The completion flag found by the [k]-th loop test is the one
    construction gave, or-ed with those of the first [k] evaluations; and
    when the loop is left after [n] passes, the model is in the state
    these [n] evaluations produce. *)
Theorem tb_fifo_feeds_the_model d argv :
  let c0 := clk (fst (dut_new d argv)) in
  let init := (core (fst (dut_new d argv)), snd (dut_new d argv)) in
  (forall k, flagA d argv k = snd (feed d (stimulusA c0 k) init)) /\
  (forall fuel top,
      snd (tb_fifo.sim d argv fuel init_world) = Some top ->
      let n := count is_eval (calls (fst (tb_fifo.sim d argv fuel init_world))) in
      clk top = c0 /\ core top = fst (feed d (stimulusA c0 n) init)).
Proof.
  cbv zeta. split.
  - intros k. rewrite flagA_unroll.
    edestruct (unrollA_feed d k) as (w' & top' & -> & _ & Hf).
    cbn [fst]. cbn [ctx_time got_finish] in Hf.
    replace (got_finish w') with (snd (core top', got_finish w')) by reflexivity.
    rewrite Hf. unfold stimulusA. do 2 f_equal.
  - intros fuel top Hret.
    destruct (simA_unroll d argv fuel) as (k & _ & -> & _ & [Hn | Hs]);
      [congruence|].
    rewrite Hs in Hret.
    edestruct (unrollA_feed d k) as (w' & top' & Hu & Hc & Hf).
    rewrite Hu in Hret. cbn [snd] in Hret. injection Hret as <-.
    split; [exact Hc|]. cbn [ctx_time got_finish] in Hf.
    replace (core top') with (fst (core top', got_finish w')) by reflexivity.
    rewrite Hf. unfold stimulusA. do 2 f_equal.
Qed.

Lemma tb_fifo_feeds_the_model_witness :
  snd (tb_fifo.sim dut_edges [] 10 init_world) = Some (mkInstance 1 (3, 0%nat)) /\
  (3, 0%nat) = fst (feed dut_edges (stimulusA 1 3) ((0, 3%nat), false)).
Proof.
  assert (H : snd (tb_fifo.sim dut_edges [] 10 init_world)
              = Some (mkInstance 1 (3, 0%nat))) by reflexivity.
  split; [exact H|].
  exact (proj2 (proj2 (tb_fifo_feeds_the_model dut_edges []) 10%nat _ H)).
Defined.

(** X2. What Variant B feeds to the model: the model is always evaluated
    at context time 0 (the driver never advances the context's time), the
    clock input being toggled before each evaluation, starting away from
    the level construction left.  The completion flag found by the [k]-th
    loop test is the one construction gave, or-ed with those of the first
    [k] evaluations; when the loop is left after [n] passes, the model is
    in the state these [n] evaluations produce and its clock input holds
    the last level assigned. *)
Theorem sim_main_feeds_the_model d argv :
  let c0 := clk (fst (dut_new d argv)) in
  let init := (core (fst (dut_new d argv)), snd (dut_new d argv)) in
  (forall k, flagB d argv k = snd (feed d (stimulusB c0 k) init)) /\
  (forall fuel top t,
      snd (sim_main.sim d argv fuel init_world) = Some (top, t) ->
      let n := count is_eval (calls (fst (sim_main.sim d argv fuel init_world))) in
      clk top = match n with O => c0 | S n' => clock_at c0 n' end /\
      core top = fst (feed d (stimulusB c0 n) init)).
Proof.
  cbv zeta. split.
  - intros k. rewrite flagB_unroll.
    edestruct (unrollB_feed d k (fst (dut_new d argv)) 0
                 (mkWorld argv 0 (snd (dut_new d argv)) true (setup_callsB argv)
                    EmptyString) O)
      as (w' & top' & t' & -> & Hf & _); [reflexivity|].
    cbn [fst]. cbn [ctx_time got_finish] in Hf.
    replace (got_finish w') with (snd (core top', got_finish w')) by reflexivity.
    rewrite Hf. reflexivity.
  - intros fuel top t Hret.
    destruct (simB_unroll d argv fuel) as (k & _ & -> & _ & [Hn | Hs]);
      [congruence|].
    rewrite Hs in Hret.
    edestruct (unrollB_feed d k (fst (dut_new d argv)) 0
                 (mkWorld argv 0 (snd (dut_new d argv)) true (setup_callsB argv)
                    EmptyString) O)
      as (w' & top' & t' & Hu & Hf & _ & Hc); [reflexivity|].
    rewrite Hu in Hret. cbn [snd] in Hret. injection Hret as <- _.
    rewrite Nat.add_0_r in Hc. split; [exact Hc|].
    cbn [ctx_time got_finish] in Hf.
    replace (core top') with (fst (core top', got_finish w')) by reflexivity.
    rewrite Hf. reflexivity.
Qed.

Lemma sim_main_feeds_the_model_witness :
  snd (sim_main.sim dut_edges [] 10 init_world)
    = Some (mkInstance 0 (1, 0%nat), 3) /\
  (1, 0%nat) = fst (feed dut_edges (stimulusB 1 3) ((0, 3%nat), false)).
Proof.
  assert (H : snd (sim_main.sim dut_edges [] 10 init_world)
              = Some (mkInstance 0 (1, 0%nat), 3)) by reflexivity.
  split; [exact H|].
  exact (proj2 (proj2 (sim_main_feeds_the_model dut_edges []) 10%nat _ _ H)).
Defined.

(** ** Runs and the fuel given to them *)

Lemma loop_callsA_app a : forall t b,
  loop_callsA t (a + b) = loop_callsA t a ++ loop_callsA (t + Z.of_nat a) b.
Proof.
  induction a as [|a IH]; intros t b.
  - cbn. rewrite Z.add_0_r. reflexivity.
  - cbn [Nat.add loop_callsA app]. rewrite IH.
    replace (t + 1 + Z.of_nat a) with (t + Z.of_nat (S a)) by lia. reflexivity.
Qed.

Lemma loop_callsB_app a : forall t c b,
  loop_callsB t c (a + b) =
  loop_callsB t c a ++ loop_callsB (Nat.iter a int_incr t) (Nat.iter a lnot c) b.
Proof.
  induction a as [|a IH]; intros t c b; [reflexivity|].
  cbn [Nat.add loop_callsB app]. rewrite IH, !Nat.iter_succ_r. reflexivity.
Qed.

(** The fuel is no part of the result: a driver that returns with
    some fuel returns the same world and the same exit status with any
    larger fuel. *)
Theorem returned_run_ignores_fuel d argv fuel fuel' :
  (fuel <= fuel')%nat ->
  (snd (tb_fifo.main d argv fuel init_world) <> None ->
   tb_fifo.main d argv fuel' init_world = tb_fifo.main d argv fuel init_world) /\
  (snd (sim_main.main d argv fuel init_world) <> None ->
   sim_main.main d argv fuel' init_world = sim_main.main d argv fuel init_world).
Proof.
  intros Hle. split; intros Hret.
  - destruct (mainA_shape d argv fuel) as (k & Hk & L & E).
    destruct (mainA_shape d argv fuel') as (k' & Hk' & L' & E').
    destruct E as [(F & M) | (_ & _ & M)]; [|rewrite M in Hret; cbn in Hret; congruence].
    assert (k' = k).
    { destruct (Nat.lt_trichotomy k' k) as [Hlt | [He | Hgt]]; [|exact He|].
      - destruct E' as [(F' & _) | (_ & Hf' & _)]; [|lia].
        rewrite (L k' Hlt) in F'. discriminate.
      - rewrite (L' k Hgt) in F. discriminate. }
    subst k'. destruct E' as [(_ & M') | (F' & _)].
    + rewrite M, M'. reflexivity.
    + rewrite F in F'. discriminate.
  - destruct (mainB_shape d argv fuel) as (k & Hk & B & L & E).
    destruct (mainB_shape d argv fuel') as (k' & Hk' & B' & L' & E').
    destruct E as [(F & _ & M) | (_ & _ & _ & _ & M)];
      [|rewrite M in Hret; cbn in Hret; congruence].
    assert (k' = k).
    { destruct (Nat.lt_trichotomy k' k) as [Hlt | [He | Hgt]]; [|exact He|].
      - destruct E' as [([F' | F'] & _) | (_ & Hf' & _)]; [|lia|lia].
        rewrite (L k' Hlt) in F'. discriminate.
      - destruct F as [F | F]; [|lia].
        rewrite (L' k Hgt) in F. discriminate. }
    subst k'. destruct E' as [(_ & _ & M') | (F' & _ & Hlt & _)].
    + rewrite M, M'. reflexivity.
    + destruct F as [F | F]; [|lia]. rewrite F in F'. discriminate.
Qed.

Lemma returned_run_ignores_fuel_witness :
  tb_fifo.main (dut_finish_at 3) [] 20 init_world
    = tb_fifo.main (dut_finish_at 3) [] 5 init_world /\
  sim_main.main (dut_finish_at 3) [] 20 init_world
    = sim_main.main (dut_finish_at 3) [] 5 init_world.
Proof.
  assert (Hle : (5 <= 20)%nat) by lia.
  destruct (returned_run_ignores_fuel (dut_finish_at 3) [] 5 20 Hle) as (HA & HB).
  split; [apply HA | apply HB]; vm_compute; discriminate.
Defined.

(** A run observed for longer only grows: the calls made within some
    fuel are an initial segment of the calls made within any larger
    fuel. *)
Theorem longer_run_extends_calls d argv fuel fuel' :
  (fuel <= fuel')%nat ->
  is_prefix (calls (fst (tb_fifo.main d argv fuel init_world)))
            (calls (fst (tb_fifo.main d argv fuel' init_world))) /\
  is_prefix (calls (fst (sim_main.main d argv fuel init_world)))
            (calls (fst (sim_main.main d argv fuel' init_world))).
Proof.
  intros Hle. split.
  - destruct (snd (tb_fifo.main d argv fuel init_world)) as [r|] eqn:Hnone.
    { assert (Hret' : snd (tb_fifo.main d argv fuel init_world) <> None)
        by (rewrite Hnone; discriminate).
      rewrite (proj1 (returned_run_ignores_fuel d argv fuel fuel' Hle) Hret').
      exists []. symmetry. apply app_nil_r. }
    destruct (mainA_shape d argv fuel) as (k & Hk & L & E).
    destruct (mainA_shape d argv fuel') as (k' & Hk' & L' & E').
    destruct E as [(_ & M) | (F & Hf & M)];
      [rewrite M in Hnone; discriminate|].
    assert (Hkk : (k <= k')%nat).
    { destruct (Nat.le_gt_cases k k') as [H | Hgt]; [exact H|].
      destruct E' as [(F' & _) | (_ & Hf' & _)]; [|lia].
      rewrite (L k' Hgt) in F'. discriminate. }
    replace k' with (k + (k' - k))%nat in E' by lia.
    rewrite loop_callsA_app in E'. rewrite M. cbn [fst calls].
    destruct E' as [(_ & M') | (_ & _ & M')]; rewrite M'; cbn [fst calls];
      eexists; rewrite <- !app_assoc; reflexivity.
  - destruct (snd (sim_main.main d argv fuel init_world)) as [r|] eqn:Hnone.
    { assert (Hret' : snd (sim_main.main d argv fuel init_world) <> None)
        by (rewrite Hnone; discriminate).
      rewrite (proj2 (returned_run_ignores_fuel d argv fuel fuel' Hle) Hret').
      exists []. symmetry. apply app_nil_r. }
    destruct (mainB_shape d argv fuel) as (k & Hk & B & L & E).
    destruct (mainB_shape d argv fuel') as (k' & Hk' & B' & L' & E').
    destruct E as [(_ & _ & M) | (F & Hf & Hlt & _ & M)];
      [rewrite M in Hnone; discriminate|].
    assert (Hkk : (k <= k')%nat).
    { destruct (Nat.le_gt_cases k k') as [H | Hgt]; [exact H|].
      destruct E' as [([F' | F'] & _) | (_ & Hf' & _)]; [|lia|lia].
      rewrite (L k' Hgt) in F'. discriminate. }
    replace k' with (k + (k' - k))%nat in E' by lia.
    rewrite loop_callsB_app in E'. rewrite M. cbn [fst calls].
    destruct E' as [(_ & _ & M') | (_ & _ & _ & _ & M')]; rewrite M'; cbn [fst calls];
      eexists; rewrite <- !app_assoc; reflexivity.
Qed.

Lemma longer_run_extends_calls_witness :
  is_prefix (calls (fst (tb_fifo.main dut_idle [] 2 init_world)))
            (calls (fst (tb_fifo.main dut_idle [] 4 init_world))) /\
  is_prefix (calls (fst (sim_main.main (dut_finish_at 3) [] 2 init_world)))
            (calls (fst (sim_main.main (dut_finish_at 3) [] 4 init_world))).
Proof.
  assert (Hle : (2 <= 4)%nat) by lia.
  split.
  - exact (proj1 (longer_run_extends_calls dut_idle [] 2 4 Hle)).
  - exact (proj2 (longer_run_extends_calls (dut_finish_at 3) [] 2 4 Hle)).
Defined.

(** ** When and why the loops are left *)

(** X3. Variant A stops at the first raised flag: when the completion
    flag is first found raised by loop test [n] (after [n] evaluations),
    the driver makes exactly [n] passes, dumps at the times 1..n, closes
    the recorder, prints its two lines and returns 0, the context time
    being [n]. *)
Theorem tb_fifo_stops_at_first_finish d argv n fuel :
  (forall j, (j < n)%nat -> flagA d argv j = false) ->
  flagA d argv n = true ->
  (n <= fuel)%nat ->
  tb_fifo.main d argv fuel init_world =
  (mkWorld argv (Z.of_nat n) true true
     (setup_callsA argv ++ loop_callsA 0 n ++ teardown_calls) bannerA,
   Some 0) /\
  dump_times (calls (fst (tb_fifo.main d argv fuel init_world)))
  = map Z.of_nat (seq 1 n).
Proof.
  intros Hlow Hup Hfuel.
  destruct (mainA_observe d argv fuel) as (k & Hk & L & D & _ & _ & E).
  assert (k = n).
  { destruct (Nat.lt_trichotomy k n) as [Hlt | [He | Hgt]]; [|exact He|].
    - destruct E as [(F & _) | (_ & Hf & _)]; [|lia].
      rewrite (Hlow k Hlt) in F. discriminate.
    - rewrite (L n Hgt) in Hup. discriminate. }
  subst k. split; [|exact D].
  destruct E as [(_ & M) | (F & _)]; [exact M|].
  rewrite Hup in F. discriminate.
Qed.

Lemma tb_fifo_stops_at_first_finish_witness :
  (forall j, (j < 37)%nat -> flagA (dut_finish_at 37) [] j = false) /\
  flagA (dut_finish_at 37) [] 37 = true /\
  dump_times (calls (fst (tb_fifo.main (dut_finish_at 37) [] 50 init_world)))
  = map Z.of_nat (seq 1 37).
Proof.
  assert (Hlow : forall j, (j < 37)%nat -> flagA (dut_finish_at 37) [] j = false).
  { intros j Hj. do 37 (destruct j as [|j]; [reflexivity|]). lia. }
  assert (Hfuel : (37 <= 50)%nat) by lia.
  split; [exact Hlow|]. split; [reflexivity|].
  exact (proj2 (tb_fifo_stops_at_first_finish (dut_finish_at 37) [] 37 50
                  Hlow eq_refl Hfuel)).
Defined.

(** X4. Variant B makes [min n 1000] passes when the completion flag is
    first found raised by loop test [n]: it stops at the flag if that comes
    within the 1000 steps and at the ceiling otherwise, and prints that
    number as the final time. *)
Theorem sim_main_passes d argv n fuel :
  (forall j, (j < n)%nat -> flagB d argv j = false) ->
  flagB d argv n = true ->
  (Nat.min n 1000 <= fuel)%nat ->
  let w := fst (sim_main.main d argv fuel init_world) in
  snd (sim_main.main d argv fuel init_world) = Some 0 /\
  count is_eval (calls w) = Nat.min n 1000 /\
  dump_times (calls w) = map Z.of_nat (seq 0 (Nat.min n 1000)) /\
  cout w = bannerB (Z.of_nat (Nat.min n 1000)).
Proof.
  intros Hlow Hup Hfuel.
  destruct (mainB_observe d argv fuel)
    as (k & Hk & B & L & D & _ & Ev & _ & _ & E).
  cbv zeta. rewrite Ev, D. clear Ev D.
  assert (k = Nat.min n 1000).
  { destruct (Nat.lt_trichotomy k (Nat.min n 1000)) as [Hlt | [He | Hgt]];
      [|exact He|].
    - destruct E as [([F | F] & _) | (_ & Hf & _)]; [|lia|lia].
      rewrite (Hlow k) in F by lia. discriminate.
    - assert (Hn : (n < k)%nat) by lia.
      rewrite (L n Hn) in Hup. discriminate. }
  subst k. destruct E as [(_ & _ & M) | (F & Hf & Hlt & _)].
  - rewrite M. repeat split; reflexivity.
  - assert (Hn : Nat.min n 1000 = n) by lia.
    rewrite Hn, Hup in F. discriminate.
Qed.

Lemma sim_main_passes_witness :
  (forall j, (j < 3)%nat -> flagB (dut_finish_at 3) [] j = false) /\
  flagB (dut_finish_at 3) [] 3 = true /\
  count is_eval (calls (fst (sim_main.main (dut_finish_at 3) [] 8 init_world)))
  = 3%nat.
Proof.
  assert (Hlow : forall j, (j < 3)%nat -> flagB (dut_finish_at 3) [] j = false).
  { intros j Hj. do 3 (destruct j as [|j]; [reflexivity|]). lia. }
  assert (Hfuel : (Nat.min 3 1000 <= 8)%nat) by (cbn; lia).
  split; [exact Hlow|]. split; [reflexivity|].
  exact (proj1 (proj2 (sim_main_passes (dut_finish_at 3) [] 3 8 Hlow eq_refl Hfuel))).
Defined.

(** X5. Why Variant B has stopped can be read off its report: the time
    it reports lies between 0 and 1000; a time below 1000 means the model
    has raised the completion flag, and a flag still down means the
    ceiling of 1000 steps was hit. *)
Theorem sim_main_exit_reason d argv fuel top t :
  snd (sim_main.sim d argv fuel init_world) = Some (top, t) ->
  let w := fst (sim_main.main d argv fuel init_world) in
  0 <= t <= 1000 /\
  (t < 1000 -> got_finish w = true) /\
  (got_finish w = false -> t = 1000).
Proof.
  intros Hs.
  destruct (mainB_shape d argv fuel) as (k & _ & B & _ & E).
  destruct E as [(F & (top' & Hs') & M) | (_ & _ & _ & Hn & _)];
    [|rewrite Hn in Hs; discriminate].
  rewrite Hs' in Hs. injection Hs as _ <-.
  cbv zeta. rewrite M. cbn [fst got_finish].
  split; [lia|]. split.
  - intros Hlt. destruct F as [F | F]; [exact F | lia].
  - intros Hdown. destruct F as [F | F]; [congruence | lia].
Qed.

Lemma sim_main_exit_reason_witness :
  snd (sim_main.sim dut_idle [] 1000 init_world) = Some (mkInstance 0 tt, 1000) /\
  got_finish (fst (sim_main.main dut_idle [] 1000 init_world)) = false /\
  snd (sim_main.sim (dut_finish_at 3) [] 10 init_world)
    = Some (mkInstance 1 3%nat, 3) /\
  got_finish (fst (sim_main.main (dut_finish_at 3) [] 10 init_world)) = true.
Proof.
  assert (H1 : snd (sim_main.sim dut_idle [] 1000 init_world)
               = Some (mkInstance 0 tt, 1000)) by (vm_compute; reflexivity).
  assert (H2 : snd (sim_main.sim (dut_finish_at 3) [] 10 init_world)
               = Some (mkInstance 1 3%nat, 3)) by reflexivity.
  assert (Hlt : 3 < 1000) by lia.
  split; [exact H1|]. split; [vm_compute; reflexivity|]. split; [exact H2|].
  exact (proj1 (proj2 (sim_main_exit_reason (dut_finish_at 3) [] 10 _ _ H2)) Hlt).
Defined.

(** ** Time, counter and clock *)

(** X7. The two drivers keep time differently.  Variant A advances the
    context time by one unit per pass and never writes the clock input:
    the context time always equals the number of evaluations made.
    Variant B never advances the context time, which stays 0 however many
    passes are made; only its own counter moves. *)
Theorem time_bases d argv fuel :
  let wa := fst (tb_fifo.main d argv fuel init_world) in
  let wb := fst (sim_main.main d argv fuel init_world) in
  (ctx_time wa = Z.of_nat (count is_eval (calls wa)) /\
   count is_time_inc (calls wa) = count is_eval (calls wa) /\
   count is_set_clk (calls wa) = O) /\
  (ctx_time wb = 0 /\ count is_time_inc (calls wb) = O).
Proof.
  cbv zeta. split.
  - destruct (mainA_shape d argv fuel) as (k & _ & _ & E).
    destruct E as [(_ & M) | (_ & _ & M)]; rewrite M; cbn [fst calls ctx_time].
    + assert (He : count is_eval (setup_callsA argv ++ loop_callsA 0 k ++ teardown_calls)
                   = k) by count_calls.
      rewrite He. split; [reflexivity|]. split; count_calls.
    + assert (He : count is_eval (setup_callsA argv ++ loop_callsA 0 k) = k)
        by count_calls.
      rewrite He. split; [reflexivity|]. split; count_calls.
  - destruct (mainB_shape d argv fuel) as (k & _ & _ & _ & E).
    destruct E as [(_ & _ & M) | (_ & _ & _ & _ & M)]; rewrite M;
      cbn [fst calls ctx_time]; (split; [reflexivity | count_calls]).
Qed.

(** X8. The [int] counter of Variant B never overflows: every time
    handed to [dump] lies in 0..999 and incrementing it is exact. *)
Theorem sim_main_counter_in_range d argv fuel :
  Forall (fun t => 0 <= t < 1000 /\ int_incr t = t + 1)
         (dump_times (calls (fst (sim_main.main d argv fuel init_world)))).
Proof.
  destruct (mainB_observe d argv fuel) as (k & _ & B & _ & D & _).
  rewrite D. apply Forall_forall. intros t Ht.
  apply in_map_iff in Ht. destruct Ht as (i & <- & Hi). apply in_seq in Hi.
  split; [lia | apply int_incr_small; lia].
Qed.

Lemma clk_values_loopB_closed k : forall t c (i : nat) (c0 : Z),
  c = match i with O => c0 | S i' => clock_at c0 i' end ->
  clk_values (loop_callsB t c k) = map (clock_at c0) (seq i k).
Proof.
  induction k as [|k IH]; intros t c i c0 Hc; [reflexivity|].
  assert (Hnext : lnot c = clock_at c0 i).
  { rewrite Hc. destruct i as [|i]; [reflexivity|]. symmetry. apply clock_at_succ. }
  rewrite clk_values_loopB. cbn [seq map].
  rewrite (IH (int_incr t) (lnot c) (S i) c0 Hnext), Hnext. reflexivity.
Qed.

(** X9. The clock Variant B drives has a period of two passes: with
    [c0] the level construction left on the clock input, pass [i] (the
    first pass is pass 0) assigns [!c0] when [i] is even and [!!c0] when
    [i] is odd, so that the first assignment moves away from the initial
    level.  There is one assignment per pass: their number [n] is the
    number of passes made ([passes_B]). *)
Theorem sim_main_clock_period d argv fuel :
  let w := fst (sim_main.main d argv fuel init_world) in
  let c0 := clk (fst (dut_new d argv)) in
  let n := List.length (clk_values (calls w)) in
  clk_values (calls w) =
    map (fun i => if Nat.even i then lnot c0 else lnot (lnot c0)) (seq 0 n) /\
  passes_B d argv fuel (snd (sim_main.main d argv fuel init_world)) n.
Proof.
  destruct (mainB_observe d argv fuel)
    as (k & _ & B & L & _ & V & _ & _ & Hc & Hend).
  cbv zeta. rewrite length_clk_values, Hc, V.
  split; [apply (clk_values_loopB_closed k 0 _ O); reflexivity|].
  assert (Hdown : flag_down_before (flagB d argv) k = true).
  { apply forallb_forall. intros j Hj. apply in_seq in Hj.
    rewrite L by lia. reflexivity. }
  destruct Hend as [(Hf & _ & Hm) | (Hf & Hfu & Hlt & _ & Hm)];
    rewrite Hm; cbn [snd]; repeat split; assumption.
Qed.

(** ** Setting up and tearing down *)

Lemma setup_order_A argv rest :
  count is_command_args rest = O -> count is_trace rest = O ->
  called_before is_command_args is_new_model (setup_callsA argv ++ rest) /\
  called_before is_trace is_open (setup_callsA argv ++ rest) /\
  no_call_until is_eval is_open (setup_callsA argv ++ rest) /\
  count is_command_args (setup_callsA argv ++ rest) = 1%nat /\
  count is_trace (setup_callsA argv ++ rest) = 1%nat /\
  In (CommandArgs argv) (setup_callsA argv ++ rest).
Proof.
  intros Hc Ht. unfold called_before, no_call_until.
  rewrite (find_index_app_found is_command_args (setup_callsA argv) rest 1 eq_refl).
  rewrite (find_index_app_found is_new_model (setup_callsA argv) rest 2 eq_refl).
  rewrite (find_index_app_found is_trace (setup_callsA argv) rest 5 eq_refl).
  rewrite (find_index_app_found is_open (setup_callsA argv) rest 6 eq_refl).
  rewrite !count_app, Hc, Ht.
  split; [lia|]. split; [lia|]. split; [reflexivity|].
  split; [reflexivity|]. split; [reflexivity|].
  apply in_or_app. left. cbn. auto.
Qed.

Lemma setup_order_B argv rest :
  count is_command_args rest = O -> count is_trace rest = O ->
  called_before is_command_args is_new_model (setup_callsB argv ++ rest) /\
  called_before is_trace is_open (setup_callsB argv ++ rest) /\
  no_call_until is_eval is_open (setup_callsB argv ++ rest) /\
  count is_command_args (setup_callsB argv ++ rest) = 1%nat /\
  count is_trace (setup_callsB argv ++ rest) = 1%nat /\
  In (CommandArgs argv) (setup_callsB argv ++ rest).
Proof.
  intros Hc Ht. unfold called_before, no_call_until.
  rewrite (find_index_app_found is_command_args (setup_callsB argv) rest 0 eq_refl).
  rewrite (find_index_app_found is_new_model (setup_callsB argv) rest 1 eq_refl).
  rewrite (find_index_app_found is_trace (setup_callsB argv) rest 4 eq_refl).
  rewrite (find_index_app_found is_open (setup_callsB argv) rest 5 eq_refl).
  rewrite !count_app, Hc, Ht.
  split; [lia|]. split; [lia|]. split; [reflexivity|].
  split; [reflexivity|]. split; [reflexivity|].
  apply in_or_app. left. cbn. auto.
Qed.

(** X10. Both drivers set up in the same order, whatever the model and
    however long the run: the arguments given to [main] are forwarded
    unchanged and once, before the model is constructed; the recorder is
    bound to the model once, before the waveform file is opened; and the
    model is not evaluated before the file is open. *)
Theorem setup_order d argv fuel :
  let la := calls (fst (tb_fifo.main d argv fuel init_world)) in
  let lb := calls (fst (sim_main.main d argv fuel init_world)) in
  (called_before is_command_args is_new_model la /\
   called_before is_trace is_open la /\
   no_call_until is_eval is_open la /\
   count is_command_args la = 1%nat /\ count is_trace la = 1%nat /\
   In (CommandArgs argv) la) /\
  (called_before is_command_args is_new_model lb /\
   called_before is_trace is_open lb /\
   no_call_until is_eval is_open lb /\
   count is_command_args lb = 1%nat /\ count is_trace lb = 1%nat /\
   In (CommandArgs argv) lb).
Proof.
  cbv zeta. split.
  - destruct (mainA_shape d argv fuel) as (k & _ & _ & E).
    destruct E as [(_ & M) | (_ & _ & M)]; rewrite M; cbn [fst calls];
      apply setup_order_A; count_calls.
  - destruct (mainB_shape d argv fuel) as (k & _ & _ & _ & E).
    destruct E as [(_ & _ & M) | (_ & _ & _ & _ & M)]; rewrite M; cbn [fst calls];
      apply setup_order_B; count_calls.
Qed.

(** X11. A driver that returns has closed the recorder and then released
    the model, each once, as its last two calls: nothing is evaluated,
    dumped or written to the model after the recorder is closed or the
    model released. *)
Theorem teardown_order d argv fuel :
  (snd (tb_fifo.main d argv fuel init_world) <> None ->
   exists l, calls (fst (tb_fifo.main d argv fuel init_world))
             = l ++ [Close; DeleteModel] /\
             count is_close l = O /\ count is_delete_model l = O) /\
  (snd (sim_main.main d argv fuel init_world) <> None ->
   exists l, calls (fst (sim_main.main d argv fuel init_world))
             = l ++ [Close; DeleteModel] /\
             count is_close l = O /\ count is_delete_model l = O).
Proof.
  split; intros Hret.
  - destruct (mainA_shape d argv fuel) as (k & _ & _ & E).
    destruct E as [(_ & M) | (_ & _ & M)]; rewrite M in *;
      [|cbn in Hret; congruence].
    exists (setup_callsA argv ++ loop_callsA 0 k). cbn [fst calls].
    split; [rewrite <- app_assoc; reflexivity|]. split; count_calls.
  - destruct (mainB_shape d argv fuel) as (k & _ & _ & _ & E).
    destruct E as [(_ & _ & M) | (_ & _ & _ & _ & M)]; rewrite M in *;
      [|cbn in Hret; congruence].
    exists (setup_callsB argv ++ loop_callsB 0 (clk (fst (dut_new d argv))) k).
    cbn [fst calls].
    split; [rewrite <- app_assoc; reflexivity|]. split; count_calls.
Qed.

Lemma teardown_order_witness :
  (exists l, calls (fst (tb_fifo.main (dut_finish_at 3) [] 10 init_world))
             = l ++ [Close; DeleteModel] /\
             count is_close l = O /\ count is_delete_model l = O) /\
  (exists l, calls (fst (sim_main.main (dut_finish_at 3) [] 10 init_world))
             = l ++ [Close; DeleteModel] /\
             count is_close l = O /\ count is_delete_model l = O).
Proof.
  destruct (teardown_order (dut_finish_at 3) [] 10) as (HA & HB).
  split; [apply HA | apply HB]; vm_compute; discriminate.
Defined.
